(** * LOOT GUI query handler: resolution pipeline and conflict query

    A shallow embedding of [Handler::OnQuery] (the [getConflictingPlugins]
    branch) and [Handler::GetGameData] from [src/gui/handler.cpp].

    C++ integers are carried by [Z] (signed [int]) and [N] (unsigned counts
    and FormIDs); [std::set] is [gset]; [std::list] is [list]; the plugin
    registry, iterated in map order, is an association list.  Exceptions
    are explicit: a call that may throw returns the state it leaves behind
    together with the [what()] of the exception, if one escaped. *)

From Stdlib Require Import ZArith Lia Ascii String.
From stdpp Require Import base strings gmap list pretty.

Local Open Scope Z_scope.
Local Open Scope string_scope.
Local Open Scope list_scope.

(** ** boost::format *)

Module Format.

Definition digit_index (c : ascii) : option nat :=
  let n := nat_of_ascii c in
  if (Nat.leb 49 n && Nat.leb n 57)%bool then Some (n - 49)%nat else None.

(** [boost::format(fmt) % a1 % a2 ...]: every positional directive [%k%]
    of [fmt] is replaced by the text of the k-th argument fed with [%]. *)
Fixpoint str (fmt : string) (args : list string) : string :=
  match fmt with
  | EmptyString => EmptyString
  | String c rest =>
      match c, rest with
      | "%"%char, String d (String "%"%char rest') =>
          match digit_index d with
          | Some k => nth k args "" +:+ str rest' args
          | None => String c (str rest args)
          end
      | _, _ => String c (str rest args)
      end
  end.

End Format.

(** ** Metadata value types *)

Inductive MessageType := say | warn | error.

Record Message := mkMessage {
  msg_type : MessageType;
  msg_text : string;
  msg_condition : string
}.

(** [Message(type, text)]: the two-argument constructor used by the
    handler leaves the condition empty. *)
Definition Message_ (t : MessageType) (text : string) : Message :=
  mkMessage t text "".

Record Tag := mkTag {
  tag_name : string;
  tag_isAddition : bool;
  tag_condition : string
}.

Record PluginDirtyInfo := mkDirty {
  ITMs : N;
  UDRs : N;
  DeletedNavmeshes : N;
  CleaningUtility : string
}.

#[global] Instance MessageType_eq_dec : EqDecision MessageType.
Proof. solve_decision. Defined.

#[global] Instance Message_eq_dec : EqDecision Message.
Proof. solve_decision. Defined.

#[global] Instance Tag_eq_dec : EqDecision Tag.
Proof. solve_decision. Defined.

#[global] Instance PluginDirtyInfo_eq_dec : EqDecision PluginDirtyInfo.
Proof. solve_decision. Defined.

#[global] Instance Tag_countable : Countable Tag.
Proof.
  refine (inj_countable'
            (fun t => (tag_name t, tag_isAddition t, tag_condition t))
            (fun '(n, a, c) => mkTag n a c) _).
  by intros [].
Defined.

#[global] Instance PluginDirtyInfo_countable : Countable PluginDirtyInfo.
Proof.
  refine (inj_countable'
            (fun d => (ITMs d, UDRs d, DeletedNavmeshes d, CleaningUtility d))
            (fun '(i, u, n, c) => mkDirty i u n c) _).
  by intros [].
Defined.

(** The plugin record: the metadata fields the handler reads, and the data
    read from the plugin file itself ([FormIDs], [Crc], [Version]). *)
Record Plugin := mkPlugin {
  Name : string;
  Enabled : bool;
  Priority : Z;
  LoadAfter : gset string;
  Reqs : gset string;
  Incs : gset string;
  Messages : list Message;
  Tags : gset Tag;
  DirtyInfo : gset PluginDirtyInfo;
  FormIDs : gset N;
  Crc : N;
  Version : string
}.

(** [Plugin(name)] *)
Definition Plugin_ (name : string) : Plugin :=
  mkPlugin name true 0 ∅ ∅ ∅ [] ∅ ∅ ∅ 0%N "".

(** [p.Tags(tags)], the setter. *)
Definition set_Tags (p : Plugin) (tags : gset Tag) : Plugin :=
  mkPlugin (Name p) (Enabled p) (Priority p) (LoadAfter p) (Reqs p) (Incs p)
           (Messages p) tags (DirtyInfo p) (FormIDs p) (Crc p) (Version p).

Definition set_Messages (p : Plugin) (msgs : list Message) : Plugin :=
  mkPlugin (Name p) (Enabled p) (Priority p) (LoadAfter p) (Reqs p) (Incs p)
           msgs (Tags p) (DirtyInfo p) (FormIDs p) (Crc p) (Version p).

(** Modelled from the spec: [Plugin::MergeMetadata] is not part of the
    sources at hand.  Scalar fields of [other] overwrite those of the
    receiver only when they are not the default ([enabled = true],
    [priority = 0]); set fields are unioned; messages are concatenated in
    order.  The name and the file data stay those of the receiver. *)
Definition MergeMetadata (base other : Plugin) : Plugin :=
  mkPlugin (Name base)
           (if Enabled other then Enabled base else false)
           (if (Priority other =? 0)%Z then Priority base else Priority other)
           (LoadAfter base ∪ LoadAfter other)
           (Reqs base ∪ Reqs other)
           (Incs base ∪ Incs other)
           (Messages base ++ Messages other)
           (Tags base ∪ Tags other)
           (DirtyInfo base ∪ DirtyInfo other)
           (FormIDs base) (Crc base) (Version base).

(** Modelled from the spec: [Plugin::HasNameOnly] is true iff no metadata
    field other than the name is set. *)
Definition HasNameOnly (p : Plugin) : bool :=
  Enabled p && (Priority p =? 0)%Z
  && bool_decide (size (LoadAfter p) = 0%nat)
  && bool_decide (size (Reqs p) = 0%nat)
  && bool_decide (size (Incs p) = 0%nat)
  && bool_decide (length (Messages p) = 0%nat)
  && bool_decide (size (Tags p) = 0%nat)
  && bool_decide (size (DirtyInfo p) = 0%nat).

(** Modelled from the spec: [Plugin::DoFormIDsOverlap] holds when the two
    identifier sets share at least one identifier. *)
Definition DoFormIDsOverlap (p other : Plugin) : bool :=
  (0 <? size (FormIDs p ∩ FormIDs other))%nat.

(** Modelled from the spec: [modulo] is the floored remainder, in
    [[0, divisor)] for a positive divisor whatever the sign of the
    dividend. *)
Definition modulo (dividend divisor : Z) : Z := dividend `mod` divisor.

(** The masterlist and the userlist. *)
Record MetadataList := mkList {
  ml_plugins : list Plugin;
  ml_messages : list Message
}.

Record Game := mkGame {
  FolderName : string;
  plugins : list (string * Plugin);
  masterlist : MetadataList;
  userlist : MetadataList
}.

Definition set_masterlist_messages (g : Game) (msgs : list Message) : Game :=
  mkGame (FolderName g) (plugins g)
         (mkList (ml_plugins (masterlist g)) msgs) (userlist g).

(** What evaluating a condition can do: return a truth value, or throw a
    [std::exception] carrying [what()]. *)
Inductive outcome :=
| Returned (b : bool)
| Thrown (what : string).

(** ** External collaborators

    What the handler uses from outside [handler.cpp] and the plugin
    record: parameters of the development. *)
Class Externals := {
  (** key comparison used by [plugins.find] and [FindPlugin] *)
  name_eqb : string -> string -> bool;
  (** the constant [max_priority] *)
  max_priority : Z;
  (** [boost::locale::translate]: the message catalogue in force *)
  translate : string -> string;
  (** the condition evaluator, a black box: language code, condition text.
      It reads the installation state, which the handler does not change
      while it serves a request. *)
  evaluate : nat -> string -> outcome;
  (** the messages [CheckInstallValidity] reports for a plugin *)
  install_violations : Game -> Plugin -> list Message;
  LoadPlugins : bool -> Game -> Game;
  GetLoadOrder : Game -> list string;
  (** [if (fs::exists(path)) list.Load(path)] for each of the two lists *)
  LoadMasterlist : Game -> Game;
  LoadUserlist : Game -> Game;
  GetRevision : Game -> string;
  GetDate : Game -> string;
  IsActive : Game -> string -> bool;
  LoadsBSA : Game -> Plugin -> bool;
  IntToHexString : N -> string;
  (** the language code derived from the settings *)
  language_code : Game -> nat
}.

(** ** The snapshot document built by [GetGameData] *)

(** The ["masterlist"] and ["userlist"] sub-nodes of a plugin node; only
    the userlist one carries ["enabled"]. *)
Record MetadataNode := mkMetadataNode {
  nd_enabled : option bool;
  nd_modPriority : Z;
  nd_isGlobalPriority : bool;
  nd_after : gset string;
  nd_req : gset string;
  nd_inc : gset string;
  nd_msg : list Message;
  nd_tag : gset Tag;
  nd_dirty : gset PluginDirtyInfo
}.

Record PluginNode := mkPluginNode {
  n_name : string;
  n_isActive : bool;
  n_isDummy : bool;
  n_loadsBSA : bool;
  n_crc : string;
  n_version : string;
  n_masterlist : option MetadataNode;
  n_userlist : option MetadataNode;
  n_modPriority : Z;
  n_isGlobalPriority : bool;
  n_messages : list Message;
  n_tags : gset Tag;
  n_isDirty : bool
}.

Record GameNode := mkGameNode {
  gn_folder : string;
  gn_revision : string;
  gn_date : string;
  gn_plugins : list PluginNode;
  gn_globalMessages : list Message
}.

(** ** The handler's state

    [g_app_state.CurrentGame()] is shared and mutated; next to it the
    state records, in order, every call the handler makes on one of the
    per-plugin working copies ([mlistPlugin], [ulistPlugin]). *)

Inductive Receiver := mlistPlugin_ | ulistPlugin_.

Inductive Operand := masterlist_entry | userlist_entry | ulistPlugin_copy.

Inductive Call :=
| call_MergeMetadata (r : Receiver) (o : Operand)
| call_Tags (r : Receiver)
| call_EvalAllConditions (r : Receiver)
| call_CheckInstallValidity (r : Receiver).

#[global] Instance Receiver_eq_dec : EqDecision Receiver.
Proof. solve_decision. Defined.

#[global] Instance Operand_eq_dec : EqDecision Operand.
Proof. solve_decision. Defined.

#[global] Instance Call_eq_dec : EqDecision Call.
Proof. solve_decision. Defined.

Record State := mkState {
  game : Game;
  calls : list (string * Call)
}.

Definition M (A : Type) : Type := State -> A * State.

#[global] Instance M_ret : MRet M := fun A a s => (a, s).

#[global] Instance M_bind : MBind M :=
  fun A B f m s => let '(a, s') := m s in f a s'.

Definition get_game : M Game := fun s => (game s, s).

Definition modify_game (f : Game -> Game) : M unit :=
  fun s => (tt, mkState (f (game s)) (calls s)).

Definition record_call (plugin : string) (c : Call) : M unit :=
  fun s => (tt, mkState (game s) (calls s ++ [(plugin, c)])).

(** [g_app_state.CurrentGame().masterlist.messages.push_back(m)] *)
Definition push_global_message (m : Message) : M unit :=
  modify_game (fun g =>
    set_masterlist_messages g (ml_messages (masterlist g) ++ [m])).

Fixpoint for_each {A B : Type} (body : A -> M B) (l : list A) : M (list B) :=
  match l with
  | [] => mret []
  | x :: l' => y ← body x; ys ← for_each body l'; mret (y :: ys)
  end.

Definition dquote : string := String (ascii_of_nat 34) EmptyString.

(** The iterator-erase loop shared by the condition filters:
    [while (it != end) if (!it->Eval()) it = erase(it); else ++it;].
    An exception leaves the list as the loop has made it so far: entries
    already erased are gone, the entry being evaluated and all later ones
    are still there. *)
Fixpoint erase_unless {A : Type} (eval : A -> outcome) (l : list A)
  : list A * option string :=
  match l with
  | [] => ([], None)
  | x :: l' =>
      match eval x with
      | Thrown what => (x :: l', Some what)
      | Returned false => erase_unless eval l'
      | Returned true =>
          let '(kept, exn) := erase_unless eval l' in (x :: kept, exn)
      end
  end.

(** The entries the loop keeps when nothing throws. *)
Definition passes {A : Type} (eval : A -> outcome) (x : A) : bool :=
  match eval x with
  | Returned true => true
  | _ => false
  end.

Section Handler.

Context `{!Externals}.

(** [(boost::format(boost::locale::translate(template)) % ...).str()] *)
Definition fmt (template : string) (args : list string) : string :=
  Format.str (translate template) args.

(** An unsigned count streamed into a format. *)
Definition num (n : N) : string := pretty n.

(** ** Dirtiness formatter (GetGameData, the loop body at lines 473-498)

    The if / else-if chain in source order.  When no branch is taken the
    format object stays default-constructed and renders the empty string. *)
Definition dirty_text (element : PluginDirtyInfo) : string :=
  let itm := ITMs element in
  let udr := UDRs element in
  let nav := DeletedNavmeshes element in
  let tool := CleaningUtility element in
  if (0 <? itm)%N && (0 <? udr)%N && (0 <? nav)%N then
    fmt "Contains %1% ITM records, %2% UDR records and %3% deleted navmeshes. Clean with %4%."
        [num itm; num udr; num nav; tool]
  else if (itm =? 0)%N && (udr =? 0)%N && (nav =? 0)%N then
    fmt "Clean with %1%." [tool]
  else if (itm =? 0)%N && (0 <? udr)%N && (0 <? nav)%N then
    fmt "Contains %1% UDR records and %2% deleted navmeshes. Clean with %3%."
        [num udr; num nav; tool]
  else if (itm =? 0)%N && (udr =? 0)%N && (0 <? nav)%N then
    fmt "Contains %1% deleted navmeshes. Clean with %2%." [num nav; tool]
  else if (itm =? 0)%N && (0 <? udr)%N && (nav =? 0)%N then
    fmt "Contains %1% UDR records. Clean with %2%." [num udr; tool]
  else if (0 <? itm)%N && (udr =? 0)%N && (0 <? nav)%N then
    fmt "Contains %1% ITM records and %2% deleted navmeshes. Clean with %3%."
        [num itm; num nav; tool]
  else if (0 <? itm)%N && (udr =? 0)%N && (nav =? 0)%N then
    fmt "Contains %1% ITM records. Clean with %2%." [num itm; tool]
  else if (0 <? itm)%N && (0 <? udr)%N && (nav =? 0)%N then
    fmt "Contains %1% ITM records and %2% UDR records. Clean with %3%."
        [num itm; num udr; tool]
  else "".

(** [messages.push_back(loot::Message(loot::Message::warn, f.str()))] *)
Definition dirty_message (element : PluginDirtyInfo) : Message :=
  Message_ warn (dirty_text element).

(** ** Priority fields (lines 419-420, 440-441 and 501-502) *)

Definition modPriority (priority : Z) : Z := modulo priority max_priority.

(** The C++ [int]: 32 bits, two's complement. *)
Definition int_min : Z := -2147483648.

Definition int_max : Z := 2147483647.

(** The [int] an out-of-range result wraps around to. *)
Definition wrap_int (z : Z) : Z :=
  ((z + 2147483648) `mod` 4294967296 - 2147483648)%Z.

(** [abs] of <cstdlib> on an [int].  Negating [INT_MIN] overflows, which
    C++ leaves undefined; the two's complement negation gives [INT_MIN]
    back, and that is what the wrap-around written out here returns. *)
Definition int_abs (r : Z) : Z :=
  if (r <? 0)%Z then wrap_int (- r) else r.

(** [abs(priority) >= max_priority], on [int]s. *)
Definition isGlobalPriority (priority : Z) : bool :=
  (max_priority <=? int_abs priority)%Z.

(** ** Condition evaluation *)

(** Modelled from the spec: evaluating the condition of a message or tag.
    An entry without a condition is always kept; otherwise the evaluator
    decides, and may fail. *)
Definition EvalCondition (language : nat) (condition : string) : outcome :=
  if bool_decide (condition = "") then Returned true
  else evaluate language condition.

(** Modelled from the spec: [Plugin::EvalAllConditions] is not part of the
    sources at hand.  It evaluates the condition of every message and every
    tag and removes the entries whose condition is false; a failure to
    evaluate propagates as an exception out of the call. *)
Definition EvalAllConditions (language : nat) (p : Plugin)
  : Plugin * option string :=
  let '(msgs, exn) :=
    erase_unless (fun m => EvalCondition language (msg_condition m)) (Messages p) in
  match exn with
  | Some what => (set_Messages p msgs, Some what)
  | None =>
      let '(tags, exn') :=
        erase_unless (fun t => EvalCondition language (tag_condition t))
                     (elements (Tags p)) in
      (set_Tags (set_Messages p msgs) (list_to_set tags), exn')
  end.

(** Modelled from the spec: [Plugin::CheckInstallValidity] appends one
    message per violation to the record's messages and never throws. *)
Definition CheckInstallValidity (g : Game) (p : Plugin) : Plugin :=
  set_Messages p (Messages p ++ install_violations g p).

(** ** Lookups *)

(** [plugins.find(name)]: the entry whose key compares equal to [name]. *)
Definition find_plugin (name : string) (ps : list (string * Plugin))
  : option (string * Plugin) :=
  List.find (fun e => name_eqb (fst e) name) ps.

(** Modelled from the spec: [MetadataList::FindPlugin] returns the entry of
    that name, or a name-only record when there is none. *)
Definition FindPlugin (l : MetadataList) (name : string) : Plugin :=
  match List.find (fun p => name_eqb (Name p) name) (ml_plugins l) with
  | Some p => p
  | None => Plugin_ name
  end.

(** Dereferencing an iterator obtained earlier: the registry node is
    identified by the key stored in it. *)
Definition deref (key : string) (ps : list (string * Plugin)) : option Plugin :=
  snd <$> List.find (fun e => String.eqb (fst e) key) ps.

(** ** [Handler::GetGameData] *)

(** Calls on the working copies, each recorded under the plugin's name. *)
Definition do_MergeMetadata (r : Receiver) (o : Operand) (base other : Plugin)
  : M Plugin :=
  record_call (Name base) (call_MergeMetadata r o);;
  mret (MergeMetadata base other).

Definition do_Tags (r : Receiver) (p : Plugin) (tags : gset Tag) : M Plugin :=
  record_call (Name p) (call_Tags r);;
  mret (set_Tags p tags).

Definition do_EvalAllConditions (r : Receiver) (language : nat) (p : Plugin)
  : M (Plugin * option string) :=
  record_call (Name p) (call_EvalAllConditions r);;
  mret (EvalAllConditions language p).

Definition do_CheckInstallValidity (r : Receiver) (p : Plugin) : M Plugin :=
  g ← get_game;
  record_call (Name p) (call_CheckInstallValidity r);;
  mret (CheckInstallValidity g p).

(** The fields written under ["masterlist"] / ["userlist"]. *)
Definition metadata_node (enabled : option bool) (p : Plugin) : MetadataNode :=
  mkMetadataNode enabled (modPriority (Priority p)) (isGlobalPriority (Priority p))
                 (LoadAfter p) (Reqs p) (Incs p) (Messages p) (Tags p)
                 (DirtyInfo p).

(** The message injected by the [catch] at lines 460-463. *)
Definition plugin_condition_error (name what : string) : Message :=
  Message_ error
    (fmt (dquote +:+ "%1%" +:+ dquote
          +:+ " contains a condition that could not be evaluated. Details: %2%")
         [name; what]).

(** The message injected by the [catch] at lines 527-530. *)
Definition global_condition_error (what : string) : Message :=
  Message_ error
    (fmt "A global message contains a condition that could not be evaluated. Details: %1%"
         [what]).

(** Lines 412-467: the two layer copies, their merge, the guarded
    evaluation and the validity check.  Returns the two layer sub-nodes
    and the final state of [mlistPlugin]. *)
Definition resolve (language : nat) (plugin : Plugin)
  : M (option MetadataNode * option MetadataNode * Plugin) :=
  g ← get_game;
  mlistPlugin ← do_MergeMetadata mlistPlugin_ masterlist_entry plugin
                  (FindPlugin (masterlist g) (Name plugin));
  let masterlistNode :=
    if HasNameOnly mlistPlugin then None
    else Some (metadata_node None mlistPlugin) in
  ulistPlugin ← do_Tags ulistPlugin_ plugin ∅;
  ulistPlugin ← do_MergeMetadata ulistPlugin_ userlist_entry ulistPlugin
                  (FindPlugin (userlist g) (Name plugin));
  let userlistNode :=
    if HasNameOnly ulistPlugin then None
    else Some (metadata_node (Some (Enabled ulistPlugin)) ulistPlugin) in
  mlistPlugin ← do_MergeMetadata mlistPlugin_ ulistPlugin_copy mlistPlugin ulistPlugin;
  '(mlistPlugin, exn) ← do_EvalAllConditions mlistPlugin_ language mlistPlugin;
  match exn with
  | Some what => push_global_message (plugin_condition_error (Name mlistPlugin) what)
  | None => mret tt
  end;;
  mlistPlugin ← do_CheckInstallValidity mlistPlugin_ mlistPlugin;
  mret (masterlistNode, userlistNode, mlistPlugin).

(** Lines 403-410 and 469-511: the plugin node. *)
Definition plugin_node (language : nat) (plugin : Plugin) : M PluginNode :=
  g ← get_game;
  let isActive := IsActive g (Name plugin) in
  let loadsBSA := LoadsBSA g plugin in
  '(masterlistNode, userlistNode, mlistPlugin) ← resolve language plugin;
  let dirtyInfo := elements (DirtyInfo mlistPlugin) in
  let messages := Messages mlistPlugin ++ map dirty_message dirtyInfo in
  let numDirtyInfo := length dirtyInfo in
  mret (mkPluginNode (Name plugin) isActive false loadsBSA
                     (IntToHexString (Crc plugin)) (Version plugin)
                     masterlistNode userlistNode
                     (modPriority (Priority mlistPlugin))
                     (isGlobalPriority (Priority mlistPlugin))
                     messages (Tags mlistPlugin)
                     (0 <? numDirtyInfo)%nat).

(** Lines 516-530: the global messages, filtered inside one [try]. *)
Definition filter_global_messages (language : nat) : M unit :=
  g ← get_game;
  let '(msgs, exn) :=
    erase_unless (fun m => EvalCondition language (msg_condition m))
                 (ml_messages (masterlist g)) in
  modify_game (fun g => set_masterlist_messages g msgs);;
  match exn with
  | Some what => push_global_message (global_condition_error what)
  | None => mret tt
  end.

(** Lines 356-364: the installed plugins, in load order. *)
Definition installed_plugins (g : Game) : list Plugin :=
  omap (fun pluginName => snd <$> find_plugin pluginName (plugins g))
       (GetLoadOrder g).

Definition GetGameData : M GameNode :=
  modify_game (LoadPlugins true);;
  g ← get_game;
  let installed := installed_plugins g in
  modify_game LoadMasterlist;;
  modify_game LoadUserlist;;
  g ← get_game;
  let language := language_code g in
  let folder := FolderName g in
  let revision := GetRevision g in
  let date := GetDate g in
  pluginNodes ← for_each (plugin_node language) installed;
  filter_global_messages language;;
  g ← get_game;
  mret (mkGameNode folder revision date pluginNodes
                   (ml_messages (masterlist g))).

(** ** [Handler::OnQuery], the [getConflictingPlugins] branch *)

Inductive Undefined :=
| begin_of_empty_registry
| invalidated_iterator.

Inductive QueryResult :=
| Success (names : list string)
| UndefinedBehaviour (why : Undefined).

Definition getConflictingPlugins (pluginName : string) : M QueryResult :=
  g ← get_game;
  let pluginIt := fst <$> find_plugin pluginName (plugins g) in
  match plugins g with
  | [] => mret (UndefinedBehaviour begin_of_empty_registry)
  | first :: _ =>
      (if (size (FormIDs (snd first)) =? 0)%nat
       then modify_game (LoadPlugins false)
       else mret tt);;
      g ← get_game;
      match pluginIt with
      | None => mret (Success [])
      | Some key =>
          match deref key (plugins g) with
          | None => mret (UndefinedBehaviour invalidated_iterator)
          | Some target =>
              mret (Success
                      (map fst (filter (fun pluginPair =>
                                          DoFormIDsOverlap target (snd pluginPair))
                                       (plugins g))))
          end
      end
  end.

End Handler.

(** ** Vocabulary for the statements *)

Section Vocabulary.

Context `{!Externals}.

(** The record on which line 458 evaluates the conditions: the live plugin
    with the masterlist entry merged in, then the userlist copy (tags
    cleared, userlist entry merged in) merged on top. *)
Definition merged_copy (g : Game) (plugin : Plugin) : Plugin :=
  MergeMetadata
    (MergeMetadata plugin (FindPlugin (masterlist g) (Name plugin)))
    (MergeMetadata (set_Tags plugin ∅) (FindPlugin (userlist g) (Name plugin))).

(** The [what()] of the exception caught at line 460, if any. *)
Definition evaluation_failure (language : nat) (g : Game) (plugin : Plugin)
  : option string :=
  snd (EvalAllConditions language (merged_copy g plugin)).

(** What the [catch] at lines 460-463 appends to the global messages. *)
Definition injected (language : nat) (g : Game) (plugin : Plugin)
  : list Message :=
  match evaluation_failure language g plugin with
  | Some what => [plugin_condition_error (Name plugin) what]
  | None => []
  end.

(** The final state of [mlistPlugin] for a plugin. *)
Definition resolved (language : nat) (plugin : Plugin) (s : State) : Plugin :=
  snd (fst (resolve language plugin s)).

(** What evaluating a message's condition gives. *)
Definition message_outcome (language : nat) (m : Message) : outcome :=
  EvalCondition language (msg_condition m).

Definition evaluates (o : outcome) : Prop :=
  match o with
  | Returned _ => True
  | Thrown _ => False
  end.

(** The table of section 4.4 of the specification: the template and the
    arguments for each pattern of (ITM > 0, UDR > 0, navmesh > 0). *)
Definition template_table (itm udr nav : bool) (e : PluginDirtyInfo)
  : string * list string :=
  let i := num (ITMs e) in
  let u := num (UDRs e) in
  let n := num (DeletedNavmeshes e) in
  let tool := CleaningUtility e in
  match itm, udr, nav with
  | false, false, false =>
      ("Clean with %1%.", [tool])
  | true, false, false =>
      ("Contains %1% ITM records. Clean with %2%.", [i; tool])
  | false, true, false =>
      ("Contains %1% UDR records. Clean with %2%.", [u; tool])
  | false, false, true =>
      ("Contains %1% deleted navmeshes. Clean with %2%.", [n; tool])
  | true, true, false =>
      ("Contains %1% ITM records and %2% UDR records. Clean with %3%.", [i; u; tool])
  | true, false, true =>
      ("Contains %1% ITM records and %2% deleted navmeshes. Clean with %3%.", [i; n; tool])
  | false, true, true =>
      ("Contains %1% UDR records and %2% deleted navmeshes. Clean with %3%.", [u; n; tool])
  | true, true, true =>
      ("Contains %1% ITM records, %2% UDR records and %3% deleted navmeshes. Clean with %4%.",
       [i; u; n; tool])
  end.

(** Two games that differ at most in the global messages of the
    masterlist. *)
Definition same_metadata (g g' : Game) : Prop :=
  ∃ msgs, g' = set_masterlist_messages g msgs.

End Vocabulary.

(** The calls made on the working copies for one plugin, in order. *)
Definition plugin_calls : list Call :=
  [ call_MergeMetadata mlistPlugin_ masterlist_entry;
    call_Tags ulistPlugin_;
    call_MergeMetadata ulistPlugin_ userlist_entry;
    call_MergeMetadata mlistPlugin_ ulistPlugin_copy;
    call_EvalAllConditions mlistPlugin_;
    call_CheckInstallValidity mlistPlugin_ ].

Definition calls_of (plugin : string) (log : list (string * Call)) : list Call :=
  map snd (List.filter (fun e => String.eqb (fst e) plugin) log).

Definition is_evaluation (c : Call) : bool :=
  match c with
  | call_EvalAllConditions _ => true
  | _ => false
  end.

(** A merge that brings userlist data into a working copy. *)
Definition is_userlist_merge (c : Call) : bool :=
  match c with
  | call_MergeMetadata _ userlist_entry => true
  | call_MergeMetadata _ ulistPlugin_copy => true
  | _ => false
  end.

Definition evaluation_count (log : list Call) : nat :=
  length (List.filter is_evaluation log).

(** The calls made before the first merge of userlist data. *)
Fixpoint before_userlist_merge (log : list Call) : list Call :=
  match log with
  | [] => []
  | c :: log' =>
      if is_userlist_merge c then [] else c :: before_userlist_merge log'
  end.

(** The sequence C1 describes: two evaluations for the plugin, one of them
    before userlist data is merged in. *)
Definition evaluated_before_and_after_userlist_merge (log : list Call) : Prop :=
  evaluation_count log = 2%nat
  ∧ evaluation_count (before_userlist_merge log) = 1%nat.

(** ** A concrete installation, for examples *)

Module Demo.

Definition oracle (language : nat) (condition : string) : outcome :=
  if String.eqb condition "unparsable" then Thrown "syntax error"
  else if String.eqb condition "never" then Returned false
  else Returned true.

Definition externals : Externals := {|
  name_eqb := String.eqb;
  max_priority := 100000;
  translate := fun template => template;
  evaluate := oracle;
  install_violations := fun _ _ => [];
  LoadPlugins := fun _ g => g;
  GetLoadOrder := fun g => map fst (plugins g);
  LoadMasterlist := fun g => g;
  LoadUserlist := fun g => g;
  GetRevision := fun _ => "abc123";
  GetDate := fun _ => "2014-06-01";
  IsActive := fun _ _ => true;
  LoadsBSA := fun _ _ => false;
  IntToHexString := fun crc => pretty crc;
  language_code := fun _ => 0%nat
|}.

(** A plugin as loaded from disk: no metadata, the given FormIDs. *)
Definition installed (name : string) (ids : gset N) (tags : gset Tag) : Plugin :=
  mkPlugin name true 0 ∅ ∅ ∅ [] tags ∅ ids 0%N "1.0".

Definition a_esp : Plugin := installed "a.esp" {[ 2748%N ]} {[ mkTag "Delev" true "" ]}.
Definition b_esp : Plugin := installed "b.esp" {[ 2748%N ]} ∅.

Definition masterlist_a : Plugin :=
  mkPlugin "a.esp" true 150000 ∅ ∅ ∅
           [mkMessage say "needs patch" "unparsable"]
           {[ mkTag "Relev" true "unparsable" ]}
           {[ mkDirty 0 0 0 "T" ]} ∅ 0%N "".

Definition userlist_a : Plugin :=
  mkPlugin "a.esp" true 0 ∅ ∅ ∅ [] {[ mkTag "Names" true "" ]} ∅ ∅ 0%N "".

Definition game : Game :=
  mkGame "Skyrim" [("a.esp", a_esp); ("b.esp", b_esp)]
         (mkList [masterlist_a]
                 [mkMessage say "first" "unparsable";
                  mkMessage say "second" "never";
                  mkMessage say "third" ""])
         (mkList [userlist_a] []).

Definition start : State := mkState game [].

End Demo.

(** * The rest of the handler *)

(** ** Replies, effects and exceptions *)

(** [callback->Success(response)] and [callback->Failure(code, message)]. *)
Inductive Reply :=
| reply_Success (response : string)
| reply_Failure (code : Z) (message : string).

(** Calls on the browser host and on the operating system, as they are
    made. *)
Inductive Effect :=
| fx_SetWindowText (text : string)
| fx_StopFinding (clearSelection : bool)
| fx_Find (identifier : Z) (searchText : string) (forward matchCase findNext : bool)
| fx_ShellExecute (operation : option string) (file : string)
| fx_OpenClipboard
| fx_EmptyClipboard
| fx_SetClipboardData (text : string)
| fx_CloseClipboard.

(** [loot::error] carries a code; any other [std::exception] only
    [what()]. *)
Inductive exn :=
| loot_error (code : Z) (what : string)
| std_exception (what : string).

(** A [YAML::Node].  A default-constructed node is null; [push_back] turns
    a null node into a sequence. *)
#[local] Unset Elimination Schemes.

Inductive Yaml :=
| YNull
| YScalar (s : string)
| YSequence (items : list Yaml)
| YMap (entries : list (string * Yaml)).

#[local] Set Elimination Schemes.

Definition push_back (node item : Yaml) : Yaml :=
  match node with
  | YSequence items => YSequence (items ++ [item])
  | _ => YSequence [item]
  end.

(** [YAML::Node temp(names)] for a [vector<string>]: always a sequence. *)
Definition node_of_strings (names : list string) : Yaml :=
  YSequence (map YScalar names).

(** What the handler reads of a parsed request: [req["name"].as<string>()]
    and [req["args"][0].as<string>()].  [None] stands for a conversion
    that throws. *)
Record Request := mkRequest {
  req_name : option string;
  req_arg0 : option string
}.

Inductive Parsed :=
| parse_ok (req : Request)
| parse_error (what : string).

Inductive GameType := tes4 | tes5 | fo3 | fonv.

(** The parts of the application and of the platform that the rest of the
    handler uses: parameters of the development. *)
Class Platform := {
  JSON_parse : string -> Parsed;
  JSON_stringify : Yaml -> string;
  (** [JSON::stringify(gameNode)] *)
  stringify_game : GameNode -> string;
  (** [g_app_state.GetSettings()] *)
  settings : Yaml;
  version_major : N;
  version_minor : N;
  version_patch : N;
  Language_Names : list string;
  Language_Locale : string -> string;
  GameType_FolderName : GameType -> string;
  InstalledGames : list Game;
  IsInstalled : Game -> bool;
  (** [Game::Name] *)
  GameName : Game -> string;
  (** [g_app_state.ChangeGame(folder)], seen from the current game *)
  ChangeGame : string -> Game -> Game;
  (** the [int] the handle returned by [ShellExecute] is cast to *)
  ShellExecute : option string -> string -> Z;
  (** [error::windows_error] *)
  windows_error : Z;
  (** [ToFileURL(g_path_readme)] and [g_path_log.parent_path().string()] *)
  readme_url : string;
  log_folder : string;
  (** what the four clipboard calls return *)
  OpenClipboard_ok : bool;
  EmptyClipboard_ok : bool;
  SetClipboardData_ok : string -> bool;
  CloseClipboard_ok : bool;
  (** [YAML::Emitter << plugin] *)
  emit_plugin : Plugin -> string
}.

(** The shared application state together with the effects made so far. *)
Record World := mkWorld {
  app_state : State;
  effects : list Effect
}.

(** How a call of [OnQuery] ends: it returns whether the request was
    handled, or an exception leaves it, or it runs into undefined
    behaviour. *)
Inductive Completion :=
| Returns (handled : bool)
| Escapes (e : exn)
| Undefined_ (why : Undefined).

Record Outcome := mkOutcome {
  completion : Completion;
  replies : list Reply;
  after : World
}.

Definition add_effects (w : World) (fx : list Effect) : World :=
  mkWorld (app_state w) (effects w ++ fx).

Definition set_game (w : World) (g : Game) : World :=
  mkWorld (mkState g (calls (app_state w))) (effects w).

Definition set_userlist (g : Game) (l : MetadataList) : Game :=
  mkGame (FolderName g) (plugins g) (masterlist g) l.

(** [list.erase(std::find(list.begin(), list.end(), value))] when the
    value is found: the first equal element goes. *)
Fixpoint erase_first {A : Type} (same : A -> bool) (l : list A) : list A :=
  match l with
  | [] => []
  | x :: l' => if same x then l' else x :: erase_first same l'
  end.

Section Queries.

Context `{!Externals} `{!Platform}.

(** ** [Handler::OpenReadme], [Handler::OpenLogLocation] *)

Definition shell_open (operation : option string) (file : string) (w : World)
  : World * option exn :=
  (add_effects w [fx_ShellExecute operation file],
   if (ShellExecute operation file <=? 32)%Z
   then Some (loot_error windows_error "Shell execute failed.")
   else None).

Definition OpenReadme : World -> World * option exn :=
  shell_open None readme_url.

Definition OpenLogLocation : World -> World * option exn :=
  shell_open (Some "open") log_folder.

(** ** The getters *)

Definition GetVersion : string :=
  JSON_stringify
    (YScalar (pretty version_major +:+ "." +:+ pretty version_minor
              +:+ "." +:+ pretty version_patch)).

Definition GetSettings : string := JSON_stringify settings.

Definition GetLanguages : string :=
  JSON_stringify
    (fold_left (fun temp name =>
                  push_back temp (YMap [("name", YScalar name);
                                        ("locale", YScalar (Language_Locale name))]))
               Language_Names YNull).

Definition GetGameTypes : string :=
  JSON_stringify
    (push_back
       (push_back
          (push_back
             (push_back YNull (YScalar (GameType_FolderName tes4)))
             (YScalar (GameType_FolderName tes5)))
          (YScalar (GameType_FolderName fo3)))
       (YScalar (GameType_FolderName fonv))).

Definition installed_games_node : Yaml :=
  fold_left (fun temp game =>
               if IsInstalled game
               then push_back temp (YScalar (FolderName game))
               else temp)
            InstalledGames YNull.

Definition GetInstalledGames : string := JSON_stringify installed_games_node.

(** ** The branches of [OnQuery] with logic of their own *)

Definition finish (handled : bool) (rs : list Reply) (w : World) : Outcome :=
  mkOutcome (Returns handled) rs w.

(** The two [catch] clauses around [OpenReadme] and [OpenLogLocation]. *)
Definition reply_of_exn (e : exn) : Reply :=
  match e with
  | loot_error code what => reply_Failure code what
  | std_exception what => reply_Failure (-1) what
  end.

Definition guarded (action : World -> World * option exn) (w : World) : Outcome :=
  match action w with
  | (w', None) => finish true [reply_Success ""] w'
  | (w', Some e) => finish true [reply_of_exn e] w'
  end.

(** Lines 118-127 and, after [ChangeGame], lines 175-182. *)
Definition reply_game_data (w : World) : Outcome :=
  let w1 := add_effects w [fx_SetWindowText ("LOOT: " +:+ GameName (game (app_state w)))] in
  let '(gameNode, st) := GetGameData (app_state w1) in
  finish true [reply_Success (stringify_game gameNode)] (mkWorld st (effects w1)).

(** Lines 184-209. *)
Definition query_conflicts (pluginName : string) (w : World) : Outcome :=
  let '(result, st) := getConflictingPlugins pluginName (app_state w) in
  let w' := mkWorld st (effects w) in
  match result with
  | Success conflictingPlugins =>
      finish true [reply_Success (JSON_stringify (node_of_strings conflictingPlugins))] w'
  | UndefinedBehaviour why => mkOutcome (Undefined_ why) [] w'
  end.

(** The text put on the clipboard, lines 215-228. *)
Definition metadata_text (g : Game) (pluginName : string) : string :=
  let plugin := MergeMetadata (FindPlugin (masterlist g) pluginName)
                              (FindPlugin (userlist g) pluginName) in
  if HasNameOnly plugin then "name: " +:+ Name plugin else emit_plugin plugin.

(** Lines 210-267. *)
Definition copyMetadata (pluginName : string) (w : World) : Outcome :=
  let text := metadata_text (game (app_state w)) pluginName in
  let w1 := add_effects w [fx_OpenClipboard] in
  if negb OpenClipboard_ok then
    finish true [reply_Failure (-1) "Failed to open the Windows clipboard."] w1
  else
    let w2 := add_effects w1 [fx_EmptyClipboard] in
    if negb EmptyClipboard_ok then
      finish true [reply_Failure (-1) "Failed to empty the Windows clipboard."] w2
    else
      let w3 := add_effects w2 [fx_SetClipboardData text] in
      if negb (SetClipboardData_ok text) then
        finish true
               [reply_Failure (-1) "Failed to copy metadata to the Windows clipboard."] w3
      else
        let w4 := add_effects w3 [fx_CloseClipboard] in
        if negb CloseClipboard_ok then
          finish true [reply_Failure (-1) "Failed to close the Windows clipboard."] w4
        else finish true [reply_Success ""] w4.

(** Lines 268-281.  [Plugin(pluginName)] is compared with the entries by
    name. *)
Definition clearPluginMetadata (pluginName : string) (w : World) : Outcome :=
  let g := game (app_state w) in
  let entries :=
    erase_first (fun p => name_eqb (Name p) pluginName) (ml_plugins (userlist g)) in
  finish true [reply_Success ""]
         (set_game w (set_userlist g (mkList entries (ml_messages (userlist g))))).

(** Modelled from the spec: [userlist.clear()] empties the userlist. *)
Definition clearAllMetadata (w : World) : Outcome :=
  finish true [reply_Success ""]
         (set_game w (set_userlist (game (app_state w)) (mkList [] []))).

(** A request argument: the conversion throws when it is not there. *)
Definition with_arg0 (req : Request) (k : string -> Outcome) (w : World) : Outcome :=
  match req_arg0 req with
  | Some arg => k arg
  | None => mkOutcome (Escapes (std_exception "bad conversion")) [] w
  end.

(** ** [Handler::OnQuery] *)

(** Lines 152-282: the request name decides. *)
Definition dispatch (requestName : string) (req : Request) (w : World) : Outcome :=
  if String.eqb requestName "find" then
    with_arg0 req (fun search =>
      finish true [reply_Success ""]
             (add_effects w [fx_StopFinding true;
                             fx_Find 0 search true false false])) w
  else if String.eqb requestName "changeGame" then
    with_arg0 req (fun folder =>
      reply_game_data (set_game w (ChangeGame folder (game (app_state w))))) w
  else if String.eqb requestName "getConflictingPlugins" then
    with_arg0 req (fun pluginName => query_conflicts pluginName w) w
  else if String.eqb requestName "copyMetadata" then
    with_arg0 req (fun pluginName => copyMetadata pluginName w) w
  else if String.eqb requestName "clearPluginMetadata" then
    with_arg0 req (fun pluginName => clearPluginMetadata pluginName w) w
  else finish false [] w.

(** The final [else] block, lines 138-151: the request is parsed and its
    name read. *)
Definition named_request (request : string) (w : World) : Outcome :=
  match JSON_parse request with
  | parse_error what => finish true [reply_Failure (-1) what] w
  | parse_ok req =>
      match req_name req with
      | None => mkOutcome (Escapes (std_exception "bad conversion")) [] w
      | Some requestName => dispatch requestName req w
      end
  end.

Definition OnQuery (request : string) (w : World) : Outcome :=
  if String.eqb request "openReadme" then guarded OpenReadme w
  else if String.eqb request "openLogLocation" then guarded OpenLogLocation w
  else if String.eqb request "getVersion" then finish true [reply_Success GetVersion] w
  else if String.eqb request "getSettings" then finish true [reply_Success GetSettings] w
  else if String.eqb request "getLanguages" then finish true [reply_Success GetLanguages] w
  else if String.eqb request "getGameTypes" then finish true [reply_Success GetGameTypes] w
  else if String.eqb request "getInstalledGames" then
    finish true [reply_Success GetInstalledGames] w
  else if String.eqb request "getGameData" then reply_game_data w
  else if String.eqb request "cancelFind" then
    finish true [reply_Success ""] (add_effects w [fx_StopFinding true])
  else if String.eqb request "clearAllMetadata" then clearAllMetadata w
  else named_request request w.

End Queries.

(** The requests matched on the request text itself, in source order. *)
Definition plain_requests : list string :=
  ["openReadme"; "openLogLocation"; "getVersion"; "getSettings"; "getLanguages";
   "getGameTypes"; "getInstalledGames"; "getGameData"; "cancelFind";
   "clearAllMetadata"].

(** The requests matched on the name field of the parsed request. *)
Definition named_requests : list string :=
  ["find"; "changeGame"; "getConflictingPlugins"; "copyMetadata";
   "clearPluginMetadata"].

(** The plain requests other than [getGameData] and [clearAllMetadata]. *)
Definition passive_plain_requests : list string :=
  ["openReadme"; "openLogLocation"; "getVersion"; "getSettings"; "getLanguages";
   "getGameTypes"; "getInstalledGames"; "cancelFind"].

(** The named requests that work on the game. *)
Definition game_requests : list string :=
  ["changeGame"; "getConflictingPlugins"; "clearPluginMetadata"].

(** A call that ends by returning true has answered once; a call that
    ends in any other way has not answered. *)
Definition answered_iff_handled (out : Outcome) : Prop :=
  match completion out with
  | Returns true => length (replies out) = 1%nat
  | _ => replies out = []
  end.

(** A call that does not decline, and answers exactly when it returns. *)
Definition served (out : Outcome) : Prop :=
  completion out ≠ Returns false ∧ answered_iff_handled out.

(** A call that no exception leaves. *)
Definition never_escapes (out : Outcome) : Prop :=
  ∀ e, completion out ≠ Escapes e.

(** ** [LootHandler]: the list of open browsers *)

(** Browsers are told apart by [IsSame]; here by a number.  The message
    router is a null pointer until the first [OnAfterCreated]. *)
Record LootHandler := mkLootHandler {
  browser_list_ : list nat;
  is_closing_ : bool;
  has_router : bool;
  quit_calls : nat
}.

(** The handler as constructed. *)
Definition LootHandler_ : LootHandler := mkLootHandler [] false false 0.

Definition OnAfterCreated (browser : nat) (h : LootHandler) : LootHandler :=
  mkLootHandler (browser_list_ h ++ [browser]) (is_closing_ h) true (quit_calls h).

(** Returns false: the close is always allowed. *)
Definition DoClose (browser : nat) (h : LootHandler) : bool * LootHandler :=
  (false,
   if (length (browser_list_ h) =? 1)%nat
   then mkLootHandler (browser_list_ h) true (has_router h) (quit_calls h)
   else h).

(** [None]: the router pointer is null when it is dereferenced. *)
Definition OnBeforeClose (browser : nat) (h : LootHandler) : option LootHandler :=
  if has_router h then
    let remaining := erase_first (Nat.eqb browser) (browser_list_ h) in
    Some (mkLootHandler remaining (is_closing_ h) true
                        (if (length remaining =? 0)%nat
                         then S (quit_calls h) else quit_calls h))
  else None.

(** Closing browsers one after the other. *)
Fixpoint close_each (browsers : list nat) (h : LootHandler) : option LootHandler :=
  match browsers with
  | [] => Some h
  | b :: rest =>
      match OnBeforeClose b h with
      | Some h' => close_each rest h'
      | None => None
      end
  end.

(** ** Further concrete installations, for examples *)

Module Sample.

(** A registry whose first entry has no FormIDs in memory. *)
Definition header_only : Game :=
  mkGame "Skyrim"
         [("0.esp", Demo.installed "0.esp" ∅ ∅); ("a.esp", Demo.a_esp)]
         (mkList [] []) (mkList [] []).

Definition platform : Platform := {|
  JSON_parse := fun request =>
    if String.eqb request "{}" then parse_ok (mkRequest None None)
    else if String.eqb request "change" then
      parse_ok (mkRequest (Some "changeGame") (Some "Oblivion"))
    else if String.eqb request "copy" then
      parse_ok (mkRequest (Some "copyMetadata") (Some "a.esp"))
    else if String.eqb request "refresh" then
      parse_ok (mkRequest (Some "refresh") None)
    else parse_error "not JSON";
  JSON_stringify := fun _ => "json";
  stringify_game := fun gameNode => gn_folder gameNode;
  settings := YNull;
  version_major := 0%N;
  version_minor := 6%N;
  version_patch := 0%N;
  Language_Names := ["English"];
  Language_Locale := fun _ => "en";
  GameType_FolderName := fun _ => "Skyrim";
  InstalledGames := [Demo.game];
  IsInstalled := fun _ => true;
  GameName := FolderName;
  ChangeGame := fun folder g =>
    mkGame folder (plugins g) (masterlist g) (userlist g);
  ShellExecute := fun _ _ => 42;
  windows_error := 7;
  readme_url := "file:///readme.html";
  log_folder := "C:/LOOT";
  OpenClipboard_ok := true;
  EmptyClipboard_ok := false;
  SetClipboardData_ok := fun _ => true;
  CloseClipboard_ok := true;
  emit_plugin := fun plugin => Name plugin
|}.

Definition world : World := mkWorld Demo.start [].

(** A userlist with two entries for "a.esp". *)
Definition doubled_userlist : World :=
  mkWorld
    (mkState
       (mkGame "Skyrim" [("a.esp", Demo.a_esp)] (mkList [] [])
               (mkList [Demo.b_esp; Demo.userlist_a; Demo.masterlist_a] []))
       [])
    [].

(** A bulk load whose every run shows: it reads one more FormID into every
    plugin but "0.esp", which has none to read. *)
Definition read_one_more (p : Plugin) : Plugin :=
  mkPlugin (Name p) (Enabled p) (Priority p) (LoadAfter p) (Reqs p) (Incs p)
           (Messages p) (Tags p) (DirtyInfo p)
           ({[ N.of_nat (size (FormIDs p)) ]} ∪ FormIDs p) (Crc p) (Version p).

Definition bulk_load (g : Game) : Game :=
  mkGame (FolderName g)
         (map (fun e => (fst e,
                         if String.eqb (fst e) "0.esp" then snd e
                         else read_one_more (snd e)))
              (plugins g))
         (masterlist g) (userlist g).

Definition reloading : Externals := {|
  name_eqb := String.eqb;
  max_priority := 100000;
  translate := fun template => template;
  evaluate := Demo.oracle;
  install_violations := fun _ _ => [];
  LoadPlugins := fun headersOnly g => if headersOnly then g else bulk_load g;
  GetLoadOrder := fun g => map fst (plugins g);
  LoadMasterlist := fun g => g;
  LoadUserlist := fun g => g;
  GetRevision := fun _ => "abc123";
  GetDate := fun _ => "2014-06-01";
  IsActive := fun _ _ => true;
  LoadsBSA := fun _ _ => false;
  IntToHexString := fun crc => pretty crc;
  language_code := fun _ => 0%nat
|}.

(** The concrete installation with the masterlist priority of "a.esp" set
    to the least [int]. *)
Definition least_priority : State :=
  mkState
    (mkGame "Skyrim" [("a.esp", Demo.a_esp); ("b.esp", Demo.b_esp)]
            (mkList [mkPlugin "a.esp" true int_min ∅ ∅ ∅ [] ∅ ∅ ∅ 0%N ""] [])
            (mkList [] []))
    [].

End Sample.

(** * Properties *)

(** Unfolds the state-passing plumbing of the handler. *)
Ltac run_handler :=
  unfold push_global_message, modify_game, record_call, get_game,
    mbind, M_bind, mret, M_ret.

(** ** The dirtiness formatter *)

Section FormatterFacts.

Context `{!Externals}.

Lemma N_pos_or_zero (n : N) :
  ((0 <? n)%N = true ∧ (n =? 0)%N = false)
  ∨ ((0 <? n)%N = false ∧ (n =? 0)%N = true).
Proof.
  destruct (N.eq_dec n 0%N) as [-> | Hn].
  - right. split; reflexivity.
  - left. split.
    + apply N.ltb_lt. lia.
    + by apply N.eqb_neq.
Qed.

(** C5.  For every dirtiness record the formatter's text is the template
    the table gives for the pattern (ITM > 0, UDR > 0, navmesh > 0),
    filled with the table's arguments (the nonzero counts, then the tool):
    the choice depends on the record only through that pattern, and the
    fall-through of the if-chain is never taken.  Under the untranslated
    catalogue, (2, 0, 3, T) renders "Contains 2 ITM records and 3 deleted
    navmeshes. Clean with T." and (0, 0, 0, T) renders "Clean with T.". *)
Theorem C5_dirty_text_by_pattern :
  (∀ element : PluginDirtyInfo,
     let pattern :=
       template_table (0 <? ITMs element)%N (0 <? UDRs element)%N
                      (0 <? DeletedNavmeshes element)%N element in
     dirty_text element = fmt (fst pattern) (snd pattern))
  ∧ dirty_text (H := Demo.externals) (mkDirty 2 0 3 "T")
    = "Contains 2 ITM records and 3 deleted navmeshes. Clean with T."
  ∧ dirty_text (H := Demo.externals) (mkDirty 0 0 0 "T") = "Clean with T.".
Proof.
  split; [| split; vm_compute; reflexivity].
  intros [itm udr nav tool]. unfold dirty_text. cbn [ITMs UDRs DeletedNavmeshes CleaningUtility].
  destruct (N_pos_or_zero itm) as [[-> ->] | [-> ->]];
    destruct (N_pos_or_zero udr) as [[-> ->] | [-> ->]];
    destruct (N_pos_or_zero nav) as [[-> ->] | [-> ->]];
    reflexivity.
Qed.

End FormatterFacts.

(** ** The per-plugin step *)

Section PipelineFacts.

Context `{!Externals}.

Lemma set_masterlist_messages_same (g : Game) :
  set_masterlist_messages g (ml_messages (masterlist g)) = g.
Proof. by destruct g as [? ? [? ?] ?]. Qed.

Lemma erase_unless_split {A : Type} (eval : A -> outcome) (l : list A) :
  erase_unless eval l = (fst (erase_unless eval l), snd (erase_unless eval l)).
Proof. by destruct (erase_unless eval l). Qed.

Lemma EvalAllConditions_Name (language : nat) (p : Plugin) :
  Name (fst (EvalAllConditions language p)) = Name p.
Proof.
  unfold EvalAllConditions.
  destruct (erase_unless _ (Messages p)) as [msgs [what |]]; [done |].
  by destruct (erase_unless _ (elements (Tags p))).
Qed.

(** What [resolve] returns and the state it leaves, in closed form. *)
Lemma resolve_eq (language : nat) (plugin : Plugin) (s : State) :
  let g := game s in
  let mlist := MergeMetadata plugin (FindPlugin (masterlist g) (Name plugin)) in
  let ulist :=
    MergeMetadata (set_Tags plugin ∅) (FindPlugin (userlist g) (Name plugin)) in
  let g' :=
    set_masterlist_messages
      g (ml_messages (masterlist g) ++ injected language g plugin) in
  resolve language plugin s
  = ((if HasNameOnly mlist then None else Some (metadata_node None mlist),
      if HasNameOnly ulist then None
      else Some (metadata_node (Some (Enabled ulist)) ulist),
      CheckInstallValidity
        g' (fst (EvalAllConditions language (merged_copy g plugin)))),
     mkState g' (calls s ++ map (pair (Name plugin)) plugin_calls)).
Proof.
  intros g mlist ulist g'.
  unfold resolve, do_MergeMetadata, do_Tags, do_EvalAllConditions,
    do_CheckInstallValidity. run_handler.
  cbn [game calls Name set_Tags MergeMetadata].
  fold g. fold mlist. fold ulist.
  change (MergeMetadata mlist ulist) with (merged_copy g plugin).
  subst g'. unfold injected, evaluation_failure.
  pose proof (EvalAllConditions_Name language (merged_copy g plugin)) as HN.
  destruct (EvalAllConditions language (merged_copy g plugin)) as [p' [what |]];
    cbn [fst snd game calls] in *; rewrite HN; cbn [merged_copy MergeMetadata Name].
  - repeat rewrite <- app_assoc. reflexivity.
  - rewrite app_nil_r, set_masterlist_messages_same.
    repeat rewrite <- app_assoc. reflexivity.
Qed.

(** The node built for a plugin, from what [resolve] returned. *)
Lemma plugin_node_eq (language : nat) (plugin : Plugin) (s : State) :
  let r := resolve language plugin s in
  let mlistPlugin := snd (fst r) in
  let dirtyInfo := elements (DirtyInfo mlistPlugin) in
  plugin_node language plugin s
  = (mkPluginNode (Name plugin) (IsActive (game s) (Name plugin)) false
                  (LoadsBSA (game s) plugin) (IntToHexString (Crc plugin))
                  (Version plugin)
                  (fst (fst (fst r))) (snd (fst (fst r)))
                  (modPriority (Priority mlistPlugin))
                  (isGlobalPriority (Priority mlistPlugin))
                  (Messages mlistPlugin ++ map dirty_message dirtyInfo)
                  (Tags mlistPlugin)
                  (0 <? length dirtyInfo)%nat,
     snd r).
Proof.
  unfold plugin_node. run_handler.
  by destruct (resolve language plugin s) as [[[mn un] p] s'].
Qed.

Lemma same_metadata_refl (g : Game) : same_metadata g g.
Proof. exists (ml_messages (masterlist g)). by rewrite set_masterlist_messages_same. Qed.

Lemma merged_copy_same_metadata (g g' : Game) (plugin : Plugin) :
  same_metadata g g' → merged_copy g' plugin = merged_copy g plugin.
Proof. by intros [msgs ->]. Qed.

Lemma injected_same_metadata (language : nat) (g g' : Game) (plugin : Plugin) :
  same_metadata g g' → injected language g' plugin = injected language g plugin.
Proof.
  intros Hg. unfold injected, evaluation_failure.
  by rewrite (merged_copy_same_metadata g g').
Qed.

Lemma set_masterlist_messages_twice (g : Game) (a b : list Message) :
  set_masterlist_messages (set_masterlist_messages g a) b
  = set_masterlist_messages g b.
Proof. reflexivity. Qed.

Lemma flat_map_injected_same_metadata (language : nat) (g g' : Game) (l : list Plugin) :
  same_metadata g g' →
  flat_map (injected language g') l = flat_map (injected language g) l.
Proof.
  intros Hg. induction l as [| p l IH]; [done |]. cbn [flat_map].
  by rewrite IH, (injected_same_metadata language g g').
Qed.

(** The state [plugin_node] leaves. *)
Lemma plugin_node_state (language : nat) (plugin : Plugin) (s : State) :
  snd (plugin_node language plugin s)
  = mkState
      (set_masterlist_messages
         (game s)
         (ml_messages (masterlist (game s)) ++ injected language (game s) plugin))
      (calls s ++ map (pair (Name plugin)) plugin_calls).
Proof.
  pose proof (plugin_node_eq language plugin s) as Hp. cbn zeta in Hp.
  rewrite Hp. cbn [snd].
  pose proof (resolve_eq language plugin s) as Hr. cbn zeta in Hr.
  by rewrite Hr.
Qed.

(** The loop over the installed plugins: the state it leaves and the nodes
    it builds.  Every node is the one [plugin_node] builds from a state
    whose game differs from the initial one in the global messages only. *)
Lemma for_each_plugin_node (language : nat) (l : list Plugin) (s : State) :
  let r := for_each (plugin_node language) l s in
  game (snd r)
  = set_masterlist_messages
      (game s)
      (ml_messages (masterlist (game s)) ++ flat_map (injected language (game s)) l)
  ∧ calls (snd r)
    = calls s ++ flat_map (fun p => map (pair (Name p)) plugin_calls) l
  ∧ Forall2 (fun p node =>
               ∃ s_p, same_metadata (game s) (game s_p)
                      ∧ node = fst (plugin_node language p s_p))
            l (fst r).
Proof.
  revert s. induction l as [| p l IH]; intros s; cbn [for_each flat_map].
  - run_handler. cbn [fst snd].
    rewrite !app_nil_r, set_masterlist_messages_same. by repeat split.
  - run_handler.
    pose proof (plugin_node_state language p s) as Hs1.
    destruct (plugin_node language p s) as [node s1] eqn:Hnode.
    specialize (IH s1).
    destruct (for_each (plugin_node language) l s1) as [nodes s2].
    cbn [fst snd] in *.
    assert (Hsame : same_metadata (game s) (game s1)).
    { rewrite Hs1. cbn [game]. by eexists. }
    destruct IH as (Hg & Hc & Hn).
    split; [| split].
    + rewrite Hg, (flat_map_injected_same_metadata language (game s) (game s1)) by done.
      rewrite Hs1. cbn [game].
      rewrite set_masterlist_messages_twice.
      unfold set_masterlist_messages at 2. cbn [masterlist ml_messages].
      by rewrite <- app_assoc.
    + rewrite Hc, Hs1. cbn [calls]. by rewrite <- app_assoc.
    + constructor.
      * exists s. split; [apply same_metadata_refl |]. by rewrite Hnode.
      * eapply Forall2_impl; [exact Hn |].
        intros q n (s_q & Hq & ->). exists s_q. split; [| done].
        destruct Hsame as [m1 Hm1]. destruct Hq as [m2 Hm2].
        exists m2. rewrite Hm2, Hm1. reflexivity.
Qed.

(** ** The erase loop *)

(** An entry whose condition does not evaluate to false is never erased,
    whether or not the loop is cut short by an exception. *)
Lemma erase_unless_keeps {A : Type} (eval : A -> outcome) (l : list A) (x : A) :
  x ∈ l → eval x ≠ Returned false → x ∈ fst (erase_unless eval l).
Proof.
  intros Hx Hne. induction l as [| a l IH]; [by apply elem_of_nil in Hx |].
  cbn [erase_unless]. destruct (eval a) as [[|] | what] eqn:Ha.
  - rewrite (erase_unless_split eval l). cbn [fst].
    apply elem_of_cons in Hx as [-> | Hx]; [left | right; by apply IH].
  - apply elem_of_cons in Hx as [-> | Hx]; [congruence | by apply IH].
  - exact Hx.
Qed.

(** Without a failure the loop is a filter. *)
Lemma erase_unless_all_evaluate {A : Type} (eval : A -> outcome) (l : list A) :
  (∀ x, x ∈ l → evaluates (eval x)) →
  erase_unless eval l = (List.filter (passes eval) l, None).
Proof.
  induction l as [| a l IH]; intros Hall; [done |].
  cbn [erase_unless List.filter]. unfold passes at 1.
  pose proof (Hall a (list_elem_of_here a l)) as Ha.
  rewrite IH by (intros x Hx; apply Hall; by right).
  by destruct (eval a) as [[|] | what].
Qed.

(** With a failure, the loop filters what precedes the first entry that
    cannot be evaluated and leaves that entry and everything after it. *)
Lemma erase_unless_first_failure {A : Type} (eval : A -> outcome)
      (pre : list A) (m : A) (post : list A) (what : string) :
  (∀ x, x ∈ pre → evaluates (eval x)) →
  eval m = Thrown what →
  erase_unless eval (pre ++ m :: post)
  = (List.filter (passes eval) pre ++ m :: post, Some what).
Proof.
  intros Hall Hm. induction pre as [| a pre IH]; cbn [app erase_unless List.filter].
  - by rewrite Hm.
  - unfold passes at 1.
    pose proof (Hall a (list_elem_of_here a pre)) as Ha.
    rewrite IH by (intros x Hx; apply Hall; by right).
    by destruct (eval a) as [[|] | w].
Qed.

(** ** [GetGameData] in closed form *)

Lemma GetGameData_eq (s : State) :
  let g1 := LoadPlugins true (game s) in
  let g0 := LoadUserlist (LoadMasterlist g1) in
  let language := language_code g0 in
  let r := for_each (plugin_node language) (installed_plugins g1)
                    (mkState g0 (calls s)) in
  let f := erase_unless (message_outcome language)
                        (ml_messages (masterlist (game (snd r)))) in
  let globalMessages :=
    fst f ++ match snd f with
             | Some what => [global_condition_error what]
             | None => []
             end in
  GetGameData s
  = (mkGameNode (FolderName g0) (GetRevision g0) (GetDate g0) (fst r) globalMessages,
     mkState (set_masterlist_messages (game (snd r)) globalMessages)
             (calls (snd r))).
Proof.
  intros g1 g0 language r f globalMessages.
  unfold GetGameData, filter_global_messages. run_handler.
  cbn [game calls]. fold g1. fold g0. fold language. fold r.
  destruct r as [nodes s1] eqn:Hr. cbn [fst snd] in *.
  change (fun m => EvalCondition language (msg_condition m))
    with (message_outcome language).
  fold f. subst globalMessages.
  destruct f as [msgs [what |]]; cbn [fst snd game calls].
  - reflexivity.
  - by rewrite app_nil_r.
Qed.

(** ** Fail-open evaluation *)

Lemma EvalAllConditions_keeps_message (language : nat) (p : Plugin) (m : Message) :
  m ∈ Messages p →
  message_outcome language m ≠ Returned false →
  m ∈ Messages (fst (EvalAllConditions language p)).
Proof.
  intros Hm Hne. unfold EvalAllConditions.
  pose proof (erase_unless_keeps (message_outcome language) (Messages p) m Hm Hne) as Hk.
  change (fun m => EvalCondition language (msg_condition m))
    with (message_outcome language).
  destruct (erase_unless (message_outcome language) (Messages p)) as [msgs [what |]];
    [exact Hk |].
  by destruct (erase_unless _ (elements (Tags p))).
Qed.

Lemma EvalAllConditions_keeps_tag (language : nat) (p : Plugin) (t : Tag) :
  t ∈ Tags p →
  EvalCondition language (tag_condition t) ≠ Returned false →
  t ∈ Tags (fst (EvalAllConditions language p)).
Proof.
  intros Ht Hne. unfold EvalAllConditions.
  destruct (erase_unless _ (Messages p)) as [msgs [what |]]; [exact Ht |].
  pose proof (erase_unless_keeps
                (fun t => EvalCondition language (tag_condition t))
                (elements (Tags p)) t) as Hk.
  destruct (erase_unless _ (elements (Tags p))) as [tags exn].
  cbn [fst set_Tags Tags] in *.
  apply elem_of_list_to_set, Hk; [by apply elem_of_elements | done].
Qed.

(** The handler itself drops nothing: the node holds the messages and the
    tags the evaluation left in [mlistPlugin], whether or not it threw. *)
Lemma plugin_node_content (language : nat) (plugin : Plugin) (s : State) :
  let node := fst (plugin_node language plugin s) in
  let left := fst (EvalAllConditions language (merged_copy (game s) plugin)) in
  (∃ appended, n_messages node = Messages left ++ appended)
  ∧ n_tags node = Tags left.
Proof.
  pose proof (plugin_node_eq language plugin s) as Hp. cbn zeta in Hp.
  pose proof (resolve_eq language plugin s) as Hr. cbn zeta in Hr.
  rewrite Hr in Hp. cbn [fst snd] in Hp. rewrite Hp. cbn [fst n_messages n_tags].
  unfold CheckInstallValidity. cbn [set_Messages Messages Tags DirtyInfo].
  split; [| done]. eexists. by rewrite <- app_assoc.
Qed.

(** Whatever the evaluation did not find false is in the node. *)
Lemma plugin_node_keeps (language : nat) (plugin : Plugin) (s : State) :
  let node := fst (plugin_node language plugin s) in
  (∀ m, m ∈ Messages (merged_copy (game s) plugin) →
        message_outcome language m ≠ Returned false →
        m ∈ n_messages node)
  ∧ (∀ t, t ∈ Tags (merged_copy (game s) plugin) →
          EvalCondition language (tag_condition t) ≠ Returned false →
          t ∈ n_tags node).
Proof.
  pose proof (plugin_node_content language plugin s) as Hc. cbn zeta in Hc.
  destruct Hc as [[appended Ha] Hb]. cbn zeta. rewrite Ha, Hb.
  split.
  - intros m Hm Hne. apply elem_of_app. left.
    by apply EvalAllConditions_keeps_message.
  - intros t Ht Hne. by apply EvalAllConditions_keeps_tag.
Qed.

Lemma plugin_node_name (language : nat) (plugin : Plugin) (s : State) :
  n_name (fst (plugin_node language plugin s)) = Name plugin.
Proof.
  pose proof (plugin_node_eq language plugin s) as Hp. cbn zeta in Hp.
  by rewrite Hp.
Qed.

Lemma injected_passes (language : nat) (g : Game) (plugin : Plugin) (m : Message) :
  m ∈ injected language g plugin → message_outcome language m = Returned true.
Proof.
  unfold injected. destruct (evaluation_failure language g plugin) as [what |].
  - by intros ->%list_elem_of_singleton.
  - by intros ?%elem_of_nil.
Qed.

End PipelineFacts.

(** ** The resolution pipeline *)

Section PipelineClaims.

Context `{!Externals}.

(** C1 (as the code has it).  For every installed plugin, in load order,
    the handler makes exactly six calls on the working copies: merge the
    masterlist entry into [mlistPlugin], clear the tags of [ulistPlugin],
    merge the userlist entry into [ulistPlugin], merge [ulistPlugin] into
    [mlistPlugin], evaluate all conditions on [mlistPlugin], check install
    validity.  Conditions are therefore evaluated once per plugin, and no
    evaluation precedes the merge of userlist data. *)
Theorem C1_one_evaluation_after_the_merges :
  (∀ s : State,
     calls (snd (GetGameData s))
     = calls s
       ++ flat_map (fun p => map (pair (Name p)) plugin_calls)
                   (installed_plugins (LoadPlugins true (game s))))
  ∧ (∀ language plugin s,
       calls (snd (resolve language plugin s))
       = calls s ++ map (pair (Name plugin)) plugin_calls)
  ∧ evaluation_count plugin_calls = 1%nat
  ∧ evaluation_count (before_userlist_merge plugin_calls) = 0%nat.
Proof.
  split; [| split; [| split; reflexivity]].
  - intros s. pose proof (GetGameData_eq s) as HG. cbn zeta in HG.
    rewrite HG. cbn [snd calls].
    by destruct (for_each_plugin_node
                   (language_code (LoadUserlist (LoadMasterlist (LoadPlugins true (game s)))))
                   (installed_plugins (LoadPlugins true (game s)))
                   (mkState (LoadUserlist (LoadMasterlist (LoadPlugins true (game s))))
                            (calls s))) as (_ & -> & _).
  - intros language plugin s.
    pose proof (resolve_eq language plugin s) as Hr. cbn zeta in Hr.
    by rewrite Hr.
Qed.

Lemma string_app_empty (s : string) : s +:+ "" = s.
Proof.
  induction s as [| c s IH]; [done |].
  change (String c s +:+ "") with (String c (s +:+ "")). by rewrite IH.
Qed.

(** The text of the injected message under the untranslated catalogue. *)
Lemma plugin_condition_error_text (name what : string) :
  (∀ template, translate template = template) →
  plugin_condition_error name what
  = mkMessage error
              (dquote +:+ name +:+ dquote
               +:+ " contains a condition that could not be evaluated. Details: "
               +:+ what) "".
Proof.
  intros Huntranslated. unfold plugin_condition_error, Message_, fmt.
  rewrite Huntranslated. f_equal.
  match goal with
  | |- Format.str ?template _ = _ =>
      let literal := eval vm_compute in template in
      change template with literal
  end.
  cbv -[String.append]. rewrite string_app_empty. cbv. reflexivity.
Qed.

(** C2.  The pipeline always returns a snapshot with one node per
    installed plugin, in load order.  The global message list reached at
    the end of the plugin loop is the initial one followed, for each
    installed plugin whose evaluation throws, by exactly one message; that
    message has error severity, its text is the translated template filled
    with the plugin's name and the exception's detail (under the
    untranslated catalogue: the name in double quotes, " contains a
    condition that could not be evaluated. Details: ", the detail), and it
    is part of the snapshot's global messages.  The node of such a plugin
    still holds all the messages and tags the evaluation left in the
    record, among them every message and every tag of the merged record
    whose condition could not be evaluated.  On the concrete installation
    the evaluation of "a.esp" fails: the snapshot has both plugins, the
    one injected message after the three loaded ones, and the node of
    "a.esp" keeps its message and its three tags. *)
Theorem C2_evaluation_failure_is_fail_open (s : State) :
  let g1 := LoadPlugins true (game s) in
  let installed := installed_plugins g1 in
  let g0 := LoadUserlist (LoadMasterlist g1) in
  let language := language_code g0 in
  let loop := for_each (plugin_node language) installed (mkState g0 (calls s)) in
  let snapshot := fst (GetGameData s) in
  map n_name (gn_plugins snapshot) = map Name installed
  ∧ ml_messages (masterlist (game (snd loop)))
    = ml_messages (masterlist g0) ++ flat_map (injected language g0) installed
  ∧ (∀ plugin, (length (injected language g0 plugin) ≤ 1)%nat)
  ∧ (∀ i plugin what,
       installed !! i = Some plugin →
       evaluation_failure language g0 plugin = Some what →
       injected language g0 plugin
       = [mkMessage error
            (fmt (dquote +:+ "%1%" +:+ dquote
                  +:+ " contains a condition that could not be evaluated. Details: %2%")
                 [Name plugin; what]) ""]
       ∧ plugin_condition_error (Name plugin) what ∈ gn_globalMessages snapshot
       ∧ ∃ node,
           gn_plugins snapshot !! i = Some node
           ∧ n_name node = Name plugin
           ∧ (∃ appended,
                n_messages node
                = Messages (fst (EvalAllConditions language (merged_copy g0 plugin)))
                  ++ appended)
           ∧ n_tags node
             = Tags (fst (EvalAllConditions language (merged_copy g0 plugin)))
           ∧ (∀ m w, m ∈ Messages (merged_copy g0 plugin) →
                     message_outcome language m = Thrown w →
                     m ∈ n_messages node)
           ∧ (∀ t w, t ∈ Tags (merged_copy g0 plugin) →
                     EvalCondition language (tag_condition t) = Thrown w →
                     t ∈ n_tags node))
  ∧ ((∀ template, translate template = template) →
     ∀ plugin what,
       evaluation_failure language g0 plugin = Some what →
       injected language g0 plugin
       = [mkMessage error
            (dquote +:+ Name plugin +:+ dquote
             +:+ " contains a condition that could not be evaluated. Details: "
             +:+ what) ""])
  ∧ evaluation_failure (H := Demo.externals) 0 Demo.game Demo.a_esp
    = Some "syntax error"
  ∧ gn_globalMessages (fst (GetGameData (H := Demo.externals) Demo.start))
    = [mkMessage say "first" "unparsable";
       mkMessage say "second" "never";
       mkMessage say "third" "";
       mkMessage error
         (dquote +:+ "a.esp" +:+ dquote
          +:+ " contains a condition that could not be evaluated. Details: syntax error")
         "";
       mkMessage error
         "A global message contains a condition that could not be evaluated. Details: syntax error"
         ""]
  ∧ map (fun n => (n_name n, n_messages n, n_tags n))
        (gn_plugins (fst (GetGameData (H := Demo.externals) Demo.start)))
    = [("a.esp",
        [mkMessage say "needs patch" "unparsable"; mkMessage warn "Clean with T." ""],
        {[ mkTag "Delev" true ""; mkTag "Relev" true "unparsable";
           mkTag "Names" true "" ]});
       ("b.esp", [], ∅)].
Proof.
  intros g1 installed g0 language loop snapshot.
  pose proof (GetGameData_eq s) as HG. cbn zeta in HG.
  fold g1 in HG. fold installed in HG. fold g0 in HG. fold language in HG.
  fold loop in HG.
  destruct (for_each_plugin_node language installed (mkState g0 (calls s)))
    as (Hgame & _ & Hnodes).
  fold loop in Hgame, Hnodes. cbn [game] in Hgame, Hnodes.
  assert (Hmsgs : ml_messages (masterlist (game (snd loop)))
                  = ml_messages (masterlist g0)
                    ++ flat_map (injected language g0) installed)
    by (by rewrite Hgame).
  subst snapshot. rewrite HG. cbn [fst gn_plugins gn_globalMessages].
  split; [| split; [exact Hmsgs | split; [| split; [| split]]]].
  - clear -Hnodes. induction Hnodes as [| p node l nodes (s_p & _ & ->) _ IH]; [done |].
    cbn [map]. by rewrite IH, plugin_node_name.
  - intros plugin. unfold injected.
    destruct (evaluation_failure language g0 plugin); cbn [length]; lia.
  - intros i plugin what Hi Hfail.
    assert (Hinj : injected language g0 plugin
                   = [plugin_condition_error (Name plugin) what])
      by (unfold injected; by rewrite Hfail).
    split; [exact Hinj | split].
    + apply elem_of_app. left. apply erase_unless_keeps.
      * rewrite Hmsgs. apply elem_of_app. right.
        apply list_elem_of_In, in_flat_map. exists plugin. split.
        -- apply list_elem_of_In. by eapply list_elem_of_lookup_2.
        -- rewrite Hinj. by left.
      * by rewrite (injected_passes language g0 plugin)
          by (rewrite Hinj; apply list_elem_of_here).
    + destruct (Forall2_lookup_l _ _ _ _ _ Hnodes Hi) as (node & Hnode & s_p & Hsame & ->).
      exists (fst (plugin_node language plugin s_p)).
      split; [exact Hnode | split; [apply plugin_node_name |]].
      destruct (plugin_node_keeps language plugin s_p) as [Hm Ht].
      pose proof (plugin_node_content language plugin s_p) as Hc. cbn zeta in Hc.
      destruct Hc as [Hmsgs' Htags'].
      rewrite (merged_copy_same_metadata g0 (game s_p)) in Hm, Ht, Hmsgs', Htags' by done.
      split; [exact Hmsgs' | split; [exact Htags' |]].
      split.
      * intros m w Hin Hw. apply Hm; [done | by rewrite Hw].
      * intros t w Hin Hw. apply Ht; [done | by rewrite Hw].
  - intros Huntranslated plugin what Hfail. unfold injected.
    by rewrite Hfail, plugin_condition_error_text.
  - repeat split; vm_compute; reflexivity.
Qed.

Lemma int_abs_in_range (r : Z) :
  (int_min < r ≤ int_max)%Z → int_abs r = Z.abs r.
Proof.
  unfold int_min, int_max, int_abs, wrap_int. intros Hr.
  destruct (Z.ltb_spec r 0); [| lia].
  rewrite Z.mod_small by lia. lia.
Qed.

(** C3 (where the code departs from it).  The node's [modPriority] is the
    floored remainder of the final priority by [max_priority], hence in
    [[0, max_priority)], and -1 gives [max_priority - 1].  For every
    [int] priority other than [INT_MIN] the node's [isGlobalPriority]
    tells whether the absolute value of the priority reaches
    [max_priority].  At [INT_MIN] it does not: [abs] overflows, the flag
    is false although the absolute value exceeds [max_priority].  With
    [max_priority] = 100000, priority 150000 gives 50000 and true, also end
    to end for a masterlist entry of priority 150000; a masterlist entry
    of priority [INT_MIN] gives 16352 and false. *)
Theorem C3_priority_fields
        (Hpos : 0 < max_priority) (Hint : (max_priority ≤ int_max)%Z)
        (language : nat) (plugin : Plugin) (s : State) :
  let node := fst (plugin_node language plugin s) in
  let r := Priority (resolved language plugin s) in
  n_modPriority node = r `mod` max_priority
  ∧ 0 ≤ n_modPriority node < max_priority
  ∧ n_isGlobalPriority node = isGlobalPriority r
  ∧ ((int_min < r ≤ int_max)%Z →
     n_isGlobalPriority node = bool_decide (max_priority ≤ Z.abs r)%Z)
  ∧ (∀ r' : Z,
       modPriority r' = r' `mod` max_priority
       ∧ 0 ≤ modPriority r' < max_priority)
  ∧ (∀ r' : Z,
       (int_min < r' ≤ int_max)%Z →
       isGlobalPriority r' = bool_decide (max_priority ≤ Z.abs r')%Z)
  ∧ modPriority (-1) = max_priority - 1
  ∧ isGlobalPriority int_min = false
  ∧ bool_decide (max_priority ≤ Z.abs int_min)%Z = true
  ∧ modPriority (H := Demo.externals) 150000 = 50000
  ∧ isGlobalPriority (H := Demo.externals) 150000 = true
  ∧ map (fun n => (n_name n, n_modPriority n, n_isGlobalPriority n))
        (gn_plugins (fst (GetGameData (H := Demo.externals) Demo.start)))
    = [("a.esp", 50000, true); ("b.esp", 0, false)]
  ∧ map (fun n => (n_name n, n_modPriority n, n_isGlobalPriority n))
        (gn_plugins (fst (GetGameData (H := Demo.externals) Sample.least_priority)))
    = [("a.esp", 16352, false); ("b.esp", 0, false)].
Proof.
  intros node r.
  assert (Hmod : ∀ r' : Z,
             modPriority r' = r' `mod` max_priority
             ∧ 0 ≤ modPriority r' < max_priority).
  { intros r'. unfold modPriority, modulo.
    split; [done | by apply Z.mod_pos_bound]. }
  assert (Hflag : ∀ r' : Z,
             (int_min < r' ≤ int_max)%Z →
             isGlobalPriority r' = bool_decide (max_priority ≤ Z.abs r')%Z).
  { intros r' Hr'. unfold isGlobalPriority. rewrite int_abs_in_range by done.
    destruct (Z.leb_spec max_priority (Z.abs r')).
    - by rewrite bool_decide_eq_true_2 by lia.
    - by rewrite bool_decide_eq_false_2 by lia. }
  assert (Hnode : n_modPriority node = modPriority r
                  ∧ n_isGlobalPriority node = isGlobalPriority r).
  { subst node r. unfold resolved.
    pose proof (plugin_node_eq language plugin s) as Hp. cbn zeta in Hp.
    by rewrite Hp. }
  destruct Hnode as [-> ->]. destruct (Hmod r) as (? & ?).
  split; [done | split; [done | split; [done | split; [by apply Hflag |]]]].
  split; [exact Hmod | split; [exact Hflag |]].
  split.
  { unfold modPriority, modulo. symmetry.
    apply (Z.mod_unique_pos (-1) max_priority (-1) (max_priority - 1)); lia. }
  split.
  { unfold isGlobalPriority. change (int_abs int_min) with int_min.
    apply Z.leb_gt. unfold int_min. lia. }
  split.
  { apply bool_decide_eq_true_2. unfold int_min, int_max in *. lia. }
  repeat split; vm_compute; reflexivity.
Qed.

Lemma nonempty_elements (X : gset PluginDirtyInfo) :
  (0 <? length (elements X))%nat = true ↔ X ≠ ∅.
Proof.
  rewrite Nat.ltb_lt. destruct (elements X) as [| x l] eqn:HX; cbn [length].
  - apply elements_empty_inv, leibniz_equiv in HX. split; [lia | done].
  - split; [| lia]. intros _ ->. by rewrite elements_empty in HX.
Qed.

(** C6.  The node's messages are the final record's messages followed by
    one warning per dirtiness record, carrying the formatted text, and
    [isDirty] is true exactly when the final record's dirtiness set is not
    empty, whichever template was used: a single record with all counts
    zero gives [isDirty = true]. *)
Theorem C6_dirty_messages_and_flag (language : nat) (plugin : Plugin) (s : State) :
  let node := fst (plugin_node language plugin s) in
  let record := resolved language plugin s in
  n_messages node
  = Messages record
    ++ map (fun e => mkMessage warn (dirty_text e) "") (elements (DirtyInfo record))
  ∧ (n_isDirty node = true ↔ DirtyInfo record ≠ ∅)
  ∧ (∀ tool, DirtyInfo record = {[ mkDirty 0 0 0 tool ]} → n_isDirty node = true)
  ∧ map (fun n => (n_name n, n_isDirty n, last (n_messages n)))
        (gn_plugins (fst (GetGameData (H := Demo.externals) Demo.start)))
    = [("a.esp", true, Some (mkMessage warn "Clean with T." ""));
       ("b.esp", false, None)].
Proof.
  intros node record.
  assert (Hflag : n_isDirty node = true ↔ DirtyInfo record ≠ ∅).
  { subst node record. unfold resolved.
    pose proof (plugin_node_eq language plugin s) as Hp. cbn zeta in Hp.
    rewrite Hp. cbn [fst n_isDirty].
    apply nonempty_elements. }
  split; [| split; [exact Hflag | split]].
  - subst node record. unfold resolved.
    pose proof (plugin_node_eq language plugin s) as Hp. cbn zeta in Hp.
    by rewrite Hp.
  - intros tool Hone. apply Hflag. rewrite Hone.
    apply non_empty_singleton_L.
  - vm_compute. reflexivity.
Qed.

(** C8.  The copy that receives the userlist entry starts from the live
    plugin with its tag set reset to empty, and the reset is made before
    the merge; the ["userlist"] sub-node, when there is one, carries
    exactly the tags of the userlist entry, whatever tags the live plugin
    or the masterlist entry have. *)
Theorem C8_userlist_tags_from_userlist_only
        (language : nat) (plugin : Plugin) (s : State) :
  let entry := FindPlugin (userlist (game s)) (Name plugin) in
  let ulistPlugin := MergeMetadata (set_Tags plugin ∅) entry in
  let node := fst (plugin_node language plugin s) in
  Tags (set_Tags plugin ∅) = ∅
  ∧ n_userlist node
    = (if HasNameOnly ulistPlugin then None
       else Some (metadata_node (Some (Enabled ulistPlugin)) ulistPlugin))
  ∧ nd_tag <$> n_userlist node
    = (if HasNameOnly ulistPlugin then None else Some (Tags entry))
  ∧ List.filter (fun c => bool_decide (c = call_Tags ulistPlugin_
                                     ∨ c = call_MergeMetadata ulistPlugin_ userlist_entry))
                (calls_of (Name plugin)
                          (calls (snd (resolve language plugin (mkState (game s) [])))))
    = [call_Tags ulistPlugin_; call_MergeMetadata ulistPlugin_ userlist_entry]
  ∧ map (fun n => (n_name n, nd_tag <$> n_userlist n))
        (gn_plugins (fst (GetGameData (H := Demo.externals) Demo.start)))
    = [("a.esp", Some {[ mkTag "Names" true "" ]}); ("b.esp", None)].
Proof.
  intros entry ulistPlugin node.
  assert (Hnode : n_userlist node
                  = (if HasNameOnly ulistPlugin then None
                     else Some (metadata_node (Some (Enabled ulistPlugin)) ulistPlugin))).
  { subst node. pose proof (plugin_node_eq language plugin s) as Hp. cbn zeta in Hp.
    pose proof (resolve_eq language plugin s) as Hr. cbn zeta in Hr.
    rewrite Hr in Hp. by rewrite Hp. }
  split; [done | split; [exact Hnode | split; [| split]]].
  - rewrite Hnode. destruct (HasNameOnly ulistPlugin); [done |].
    cbn [fmap option_fmap option_map metadata_node nd_tag].
    subst ulistPlugin. cbn [MergeMetadata set_Tags Tags].
    by rewrite (left_id_L ∅ (∪)).
  - pose proof (resolve_eq language plugin (mkState (game s) [])) as Hr. cbn zeta in Hr.
    rewrite Hr. cbn [snd calls app map plugin_calls]. unfold calls_of.
    cbn [List.filter map fst snd]. rewrite String.eqb_refl. reflexivity.
  - vm_compute. reflexivity.
Qed.

(** C7 (as the code has it).  The snapshot's global messages are obtained
    from the list reached at the end of the plugin loop by one pass of the
    erase loop inside a single [try].  If every condition can be evaluated,
    the pass keeps exactly the messages whose condition holds, in order.
    If a condition cannot be evaluated, the pass has removed the false
    messages that precede the first such message, keeps that message and
    every later one as they are, and one error message is appended.  In
    both cases every message that has no condition is kept. *)
Theorem C7_global_messages_filtered_up_to_first_failure (s : State) :
  let g1 := LoadPlugins true (game s) in
  let installed := installed_plugins g1 in
  let g0 := LoadUserlist (LoadMasterlist g1) in
  let language := language_code g0 in
  let before :=
    ml_messages (masterlist g0) ++ flat_map (injected language g0) installed in
  let after := gn_globalMessages (fst (GetGameData s)) in
  ((∀ m, m ∈ before → evaluates (message_outcome language m)) →
   after = List.filter (passes (message_outcome language)) before)
  ∧ (∀ pre m post what,
       before = pre ++ m :: post →
       (∀ x, x ∈ pre → evaluates (message_outcome language x)) →
       message_outcome language m = Thrown what →
       after = List.filter (passes (message_outcome language)) pre
               ++ m :: post ++ [global_condition_error what])
  ∧ (∀ m, m ∈ before → msg_condition m = "" → m ∈ after).
Proof.
  intros g1 installed g0 language before after.
  pose proof (GetGameData_eq s) as HG. cbn zeta in HG.
  fold g1 in HG. fold installed in HG. fold g0 in HG. fold language in HG.
  destruct (for_each_plugin_node language installed (mkState g0 (calls s)))
    as (Hgame & _ & _).
  cbn [game] in Hgame. rewrite Hgame in HG.
  change (ml_messages (masterlist (set_masterlist_messages g0 ?l))) with l in HG.
  fold before in HG.
  assert (Hafter : after
                   = fst (erase_unless (message_outcome language) before)
                     ++ match snd (erase_unless (message_outcome language) before) with
                        | Some what => [global_condition_error what]
                        | None => []
                        end)
    by (subst after; by rewrite HG).
  clearbody after. clear HG Hgame. subst after.
  split; [| split].
  - intros Hall. rewrite erase_unless_all_evaluate by done.
    cbn [fst snd]. by rewrite app_nil_r.
  - intros pre m post what -> Hall Hm.
    rewrite (erase_unless_first_failure _ pre m post what) by done.
    cbn [fst snd]. by rewrite <- app_assoc.
  - intros m Hin Hcond. apply elem_of_app. left.
    apply erase_unless_keeps; [done |].
    unfold message_outcome, EvalCondition. by rewrite Hcond.
Qed.

End PipelineClaims.

(** ** The conflict query *)

Section ConflictClaims.

Context `{!Externals}.

Lemma DoFormIDsOverlap_spec (p other : Plugin) :
  DoFormIDsOverlap p other = true
  ↔ ∃ id, id ∈ FormIDs p ∧ id ∈ FormIDs other.
Proof.
  unfold DoFormIDsOverlap. rewrite Nat.ltb_lt. split.
  - intros [id Hid%elem_of_intersection]%size_pos_elem_of. by exists id.
  - intros (id & Hp & Ho).
    destruct (size (FormIDs p ∩ FormIDs other)) eqn:Hsize; [| lia].
    apply size_empty_iff in Hsize.
    assert (id ∈ FormIDs p ∩ FormIDs other) as Hin by by apply elem_of_intersection.
    rewrite Hsize in Hin. by apply not_elem_of_empty in Hin.
Qed.

(** The iterator returned by [find] still points at the entry found. *)
Lemma deref_found (name key : string) (target : Plugin) (ps : list (string * Plugin)) :
  find_plugin name ps = Some (key, target) → deref key ps = Some target.
Proof.
  unfold find_plugin, deref. induction ps as [| [k p] ps IH]; [done |].
  cbn [List.find fst]. destruct (name_eqb k name) eqn:Hk.
  - intros [= -> ->]. by rewrite String.eqb_refl.
  - intros Hfind. destruct (String.eqb_spec k key) as [-> | Hne]; [| by apply IH].
    apply find_some in Hfind as [_ Hkey]. cbn [fst] in Hkey. congruence.
Qed.

Lemma find_plugin_in (name key : string) (target : Plugin) (ps : list (string * Plugin)) :
  find_plugin name ps = Some (key, target) → (key, target) ∈ ps.
Proof. intros [Hin _]%find_some. by apply list_elem_of_In. Qed.

(** The query on a registry whose first entry has FormIDs in memory. *)
Lemma getConflictingPlugins_loaded
      (pluginName : string) (s : State)
      (first : string * Plugin) (rest : list (string * Plugin)) :
  plugins (game s) = first :: rest →
  FormIDs (snd first) ≠ ∅ →
  getConflictingPlugins pluginName s
  = (match find_plugin pluginName (plugins (game s)) with
     | None => Success []
     | Some (key, _) =>
         match deref key (plugins (game s)) with
         | None => UndefinedBehaviour invalidated_iterator
         | Some target =>
             Success (map fst (filter (fun e => DoFormIDsOverlap target (snd e))
                                      (plugins (game s))))
         end
     end, s).
Proof.
  intros Hreg Hloaded.
  unfold getConflictingPlugins. run_handler.
  rewrite Hreg.
  destruct (size (FormIDs (snd first))) eqn:Hsize.
  { apply size_empty_iff, leibniz_equiv in Hsize. done. }
  cbn [Nat.eqb]. rewrite Hreg.
  destruct (find_plugin pluginName (first :: rest)) as [[key target] |]; cbn [fmap option_fmap option_map fst]; [| done].
  by destruct (deref key (first :: rest)).
Qed.

(** C4 (as the code has it).  When the first registry entry has FormIDs in
    memory and the queried name is in the registry, the query returns, in
    registry order, the names of exactly those entries whose FormID set
    shares an identifier with the queried plugin's, and leaves the state
    alone.  The queried plugin's own entry is one of the candidates: its
    name is in the result exactly when its FormID set is not empty. *)
Theorem C4_conflicts_are_the_overlapping_entries
        (pluginName : string) (s : State)
        (first : string * Plugin) (rest : list (string * Plugin))
        (key : string) (target : Plugin)
        (Hreg : plugins (game s) = first :: rest)
        (Hloaded : FormIDs (snd first) ≠ ∅)
        (Hfound : find_plugin pluginName (plugins (game s)) = Some (key, target)) :
  let names :=
    map fst (filter (fun e => DoFormIDsOverlap target (snd e)) (plugins (game s))) in
  getConflictingPlugins pluginName s = (Success names, s)
  ∧ (∀ name, name ∈ names
             ↔ ∃ other, (name, other) ∈ plugins (game s)
                        ∧ ∃ id, id ∈ FormIDs target ∧ id ∈ FormIDs other)
  ∧ (key ∈ names ↔ FormIDs target ≠ ∅).
Proof.
  intros names.
  assert (Hnames : ∀ name, name ∈ names
             ↔ ∃ other, (name, other) ∈ plugins (game s)
                        ∧ ∃ id, id ∈ FormIDs target ∧ id ∈ FormIDs other).
  { intros name. subst names. rewrite list_elem_of_fmap. split.
    - intros ([k other] & -> & [Hov Hin]%list_elem_of_filter).
      exists other. split; [done |]. apply DoFormIDsOverlap_spec.
      by apply Is_true_true.
    - intros (other & Hin & Hov). exists (name, other). split; [done |].
      apply list_elem_of_filter. split; [| done].
      by apply Is_true_true, DoFormIDsOverlap_spec. }
  split; [| split; [exact Hnames |]].
  - rewrite (getConflictingPlugins_loaded pluginName s first rest Hreg Hloaded).
    by rewrite Hfound, (deref_found pluginName key target).
  - rewrite Hnames. split.
    + intros (other & _ & id & Hid & _) Hempty. rewrite Hempty in Hid.
      by apply not_elem_of_empty in Hid.
    + intros [id Hid]%set_choose_L. exists target. split.
      * by eapply find_plugin_in.
      * by exists id.
Qed.

(** C9 (where the code departs from it).  On an empty registry the query
    for any name dereferences [plugins.begin()], which is [end()]: the
    behaviour is undefined, no list is returned.  On a registry with at
    least one entry, a name that is not in it gets the empty list. *)
Theorem C9_absent_plugin_query :
  (∀ pluginName folder mlist ulist log,
     find_plugin pluginName (plugins (mkGame folder [] mlist ulist)) = None
     ∧ getConflictingPlugins pluginName (mkState (mkGame folder [] mlist ulist) log)
       = (UndefinedBehaviour begin_of_empty_registry,
          mkState (mkGame folder [] mlist ulist) log))
  ∧ (∀ pluginName s first rest,
       plugins (game s) = first :: rest →
       find_plugin pluginName (plugins (game s)) = None →
       fst (getConflictingPlugins pluginName s) = Success []).
Proof.
  split.
  - intros. split; reflexivity.
  - intros pluginName s first rest Hreg Hnone.
    unfold getConflictingPlugins. run_handler.
    rewrite Hnone, Hreg. cbn [fmap option_fmap option_map].
    by destruct (size (FormIDs (snd first)) =? 0)%nat.
Qed.

(** C10.  When the registry has at least one entry, reading the first
    entry's FormIDs is defined; whether the bulk load runs is decided by
    that first entry alone, whatever plugin is queried: the game after the
    query is the loaded one exactly when the first entry has no FormIDs in
    memory.  The read is not guarded: on an empty registry it is the
    undefined dereference. *)
Theorem C10_first_entry_decides_the_load
        (pluginName : string) (s : State)
        (first : string * Plugin) (rest : list (string * Plugin))
        (Hreg : plugins (game s) = first :: rest) :
  fst (getConflictingPlugins pluginName s)
  ≠ UndefinedBehaviour begin_of_empty_registry
  ∧ game (snd (getConflictingPlugins pluginName s))
    = (if (size (FormIDs (snd first)) =? 0)%nat
       then LoadPlugins false (game s)
       else game s)
  ∧ (∀ s', plugins (game s') = [] →
           fst (getConflictingPlugins pluginName s')
           = UndefinedBehaviour begin_of_empty_registry).
Proof.
  split; [| split].
  - unfold getConflictingPlugins, get_game, modify_game, mbind, M_bind, mret, M_ret.
    rewrite Hreg.
    destruct (size (FormIDs (snd first)) =? 0)%nat; cbn [game];
      destruct (fst <$> find_plugin pluginName (first :: rest)) as [key |]; try done;
      by destruct (deref key _).
  - unfold getConflictingPlugins, get_game, modify_game, mbind, M_bind, mret, M_ret.
    rewrite Hreg.
    destruct (size (FormIDs (snd first)) =? 0)%nat; cbn [game];
      destruct (fst <$> find_plugin pluginName (first :: rest)) as [key |]; try done;
      by destruct (deref key _).
  - intros s' Hempty.
    unfold getConflictingPlugins. run_handler.
    by rewrite Hempty.
Qed.

End ConflictClaims.

(** ** The statements on the concrete installation *)

(** C1, as stated, fails: for "a.esp" the handler's calls do not contain
    two evaluations with one of them before the userlist merge. *)
Lemma C1_counterexample :
  ¬ evaluated_before_and_after_userlist_merge
      (calls_of "a.esp"
                (calls (snd (GetGameData (H := Demo.externals) Demo.start)))).
Proof. intros [Hcount _]. vm_compute in Hcount. discriminate Hcount. Qed.

(** C4, as stated, fails: "a.esp", whose FormID set is {0xABC}, is listed
    among its own conflicts. *)
Lemma C4_counterexample :
  ¬ (∀ names,
       fst (getConflictingPlugins (H := Demo.externals) "a.esp" Demo.start)
       = Success names →
       "a.esp" ∉ names).
Proof.
  intros Hnever. apply (Hnever ["a.esp"; "b.esp"]).
  - vm_compute. reflexivity.
  - apply list_elem_of_here.
Qed.

(** C7, as stated, fails: the global message "second" has a condition
    that evaluates to false, yet it is in the snapshot's global messages,
    because evaluating the condition of "first" threw before the loop
    reached it. *)
Lemma C7_counterexample :
  ¬ (∀ m,
       m ∈ ml_messages (masterlist Demo.game) →
       message_outcome (H := Demo.externals) 0 m = Returned false →
       m ∉ gn_globalMessages (fst (GetGameData (H := Demo.externals) Demo.start))).
Proof.
  intros Hremoved.
  apply (Hremoved (mkMessage say "second" "never")).
  - apply list_elem_of_further, list_elem_of_here.
  - vm_compute. reflexivity.
  - apply list_elem_of_In. vm_compute. tauto.
Qed.

(** C3 at "a.esp" of the concrete installation, where [max_priority] is
    100000. *)
Lemma C3_witness :
  n_modPriority (fst (plugin_node (H := Demo.externals) 0 Demo.a_esp Demo.start))
  = Priority (resolved (H := Demo.externals) 0 Demo.a_esp Demo.start)
    `mod` max_priority (Externals := Demo.externals).
Proof.
  refine (proj1 (C3_priority_fields (H := Demo.externals) eq_refl _
                                    0%nat Demo.a_esp Demo.start)).
  vm_compute. discriminate.
Defined.

(** C4 at the query for "a.esp" on the concrete installation. *)
Lemma C4_witness :
  getConflictingPlugins (H := Demo.externals) "a.esp" Demo.start
  = (Success (map fst (filter (fun e => DoFormIDsOverlap Demo.a_esp (snd e))
                              (plugins Demo.game))),
     Demo.start).
Proof.
  refine (proj1 (C4_conflicts_are_the_overlapping_entries
                   (H := Demo.externals) "a.esp" Demo.start
                   ("a.esp", Demo.a_esp) [("b.esp", Demo.b_esp)]
                   "a.esp" Demo.a_esp eq_refl _ eq_refl)).
  change (({[ 2748%N ]} : gset N) ≠ ∅). apply non_empty_singleton_L.
Defined.

(** C10 at the query for "b.esp" on the concrete installation. *)
Lemma C10_witness :
  fst (getConflictingPlugins (H := Demo.externals) "b.esp" Demo.start)
  ≠ UndefinedBehaviour begin_of_empty_registry.
Proof.
  exact (proj1 (C10_first_entry_decides_the_load
                  (H := Demo.externals) "b.esp" Demo.start
                  ("a.esp", Demo.a_esp) [("b.esp", Demo.b_esp)] eq_refl)).
Defined.

(** * Further properties of the handler *)

(** ** [GetGameData]: the shared state and the global messages *)

Section PipelineExtras.

Context `{!Externals}.

(** The snapshot's global messages: one pass of the erase loop over the
    list the plugin loop left, then the error message of the [catch]. *)
Lemma global_messages_after (s : State) :
  let g1 := LoadPlugins true (game s) in
  let g0 := LoadUserlist (LoadMasterlist g1) in
  let language := language_code g0 in
  let before :=
    ml_messages (masterlist g0)
    ++ flat_map (injected language g0) (installed_plugins g1) in
  let pass := erase_unless (message_outcome language) before in
  gn_globalMessages (fst (GetGameData s))
  = fst pass ++ match snd pass with
                | Some what => [global_condition_error what]
                | None => []
                end.
Proof.
  intros g1 g0 language before pass.
  pose proof (GetGameData_eq s) as HG. cbn zeta in HG.
  destruct (for_each_plugin_node language (installed_plugins g1) (mkState g0 (calls s)))
    as (Hgame & _ & _).
  cbn [game] in Hgame. fold g1 g0 language in HG. rewrite Hgame in HG.
  change (ml_messages (masterlist (set_masterlist_messages g0 ?l))) with l in HG.
  by rewrite HG.
Qed.

(** X1.  [GetGameData] writes its result back into the shared state: the
    game it leaves is the game the three loads produced with the
    masterlist's global messages replaced by the snapshot's global
    messages.  Registry, masterlist entries and userlist are as loaded;
    global messages the filter removed are gone from the shared list, and
    the injected error messages stay in it. *)
Theorem X1_global_messages_written_back (s : State) :
  let g0 := LoadUserlist (LoadMasterlist (LoadPlugins true (game s))) in
  let snapshot := fst (GetGameData s) in
  let left := game (snd (GetGameData s)) in
  left = set_masterlist_messages g0 (gn_globalMessages snapshot)
  ∧ ml_messages (masterlist left) = gn_globalMessages snapshot
  ∧ plugins left = plugins g0
  ∧ ml_plugins (masterlist left) = ml_plugins (masterlist g0)
  ∧ userlist left = userlist g0.
Proof.
  intros g0 snapshot left.
  assert (Hleft : left = set_masterlist_messages g0 (gn_globalMessages snapshot)).
  { subst left snapshot.
    pose proof (GetGameData_eq s) as HG. cbn zeta in HG. rewrite HG.
    cbn [fst snd game gn_globalMessages].
    destruct (for_each_plugin_node
                (language_code g0)
                (installed_plugins (LoadPlugins true (game s)))
                (mkState g0 (calls s))) as (Hgame & _ & _).
    cbn [game] in Hgame. fold g0. by rewrite Hgame. }
  by rewrite Hleft.
Qed.

Lemma erase_unless_count {A : Type} (dec : ∀ x y : A, {x = y} + {x ≠ y})
      (eval : A -> outcome) (l : list A) (x : A) :
  eval x ≠ Returned false →
  count_occ dec (fst (erase_unless eval l)) x = count_occ dec l x.
Proof.
  intros Hx. induction l as [| a l IH]; [done |]. cbn [erase_unless].
  destruct (eval a) as [[|] | what] eqn:Ha.
  - rewrite (erase_unless_split eval l). cbn [fst count_occ].
    destruct (dec a x); by rewrite IH.
  - rewrite IH. cbn [count_occ]. destruct (dec a x) as [-> | ?]; [congruence | done].
  - done.
Qed.

(** Within one request: a global message whose condition is absent, holds
    or cannot be evaluated is never dropped nor merged with an equal one. *)
Lemma kept_messages_counted (s : State) (m : Message) :
  let g1 := LoadPlugins true (game s) in
  let g0 := LoadUserlist (LoadMasterlist g1) in
  let language := language_code g0 in
  message_outcome language m ≠ Returned false →
  (count_occ Message_eq_dec (gn_globalMessages (fst (GetGameData s))) m
   ≥ count_occ Message_eq_dec (ml_messages (masterlist g0)) m
     + count_occ Message_eq_dec
                 (flat_map (injected language g0) (installed_plugins g1)) m)%nat.
Proof.
  intros g1 g0 language Hm.
  pose proof (global_messages_after s) as Hafter. cbn zeta in Hafter.
  fold g1 g0 language in Hafter. rewrite Hafter.
  rewrite count_occ_app, erase_unless_count, count_occ_app by done. lia.
Qed.

(** The global messages [GetGameData] leaves in the shared state are those
    of its snapshot. *)
Lemma GetGameData_leaves_snapshot_messages (s : State) :
  ml_messages (masterlist (game (snd (GetGameData s))))
  = gn_globalMessages (fst (GetGameData s)).
Proof.
  pose proof (GetGameData_eq s) as HG. cbn zeta in HG. by rewrite HG.
Qed.

(** X2.  Messages pile up from one request to the next.  When the loads
    of a second [GetGameData] leave the game as the first one left it
    (nothing is read again), every global message whose condition is
    absent, holds or cannot be evaluated is in the second snapshot at
    least as often as in the first snapshot plus as often as it is
    injected again: the error message injected for a failing plugin by
    the first request is joined by the new one, not replaced. *)
Theorem X2_kept_messages_pile_up (s : State) (m : Message) :
  let first := GetGameData s in
  let g' := game (snd first) in
  let second := GetGameData (snd first) in
  let language := language_code g' in
  LoadPlugins true g' = g' →
  LoadMasterlist g' = g' →
  LoadUserlist g' = g' →
  message_outcome language m ≠ Returned false →
  (count_occ Message_eq_dec (gn_globalMessages (fst second)) m
   ≥ count_occ Message_eq_dec (gn_globalMessages (fst first)) m
     + count_occ Message_eq_dec
                 (flat_map (injected language g') (installed_plugins g')) m)%nat.
Proof.
  intros first g' second language Hplugins Hmasterlist Huserlist Hm.
  pose proof (kept_messages_counted (snd first) m) as Hcount. cbn zeta in Hcount.
  fold g' in Hcount. rewrite Hplugins, Hmasterlist, Huserlist in Hcount.
  subst second. unfold ge in *. etrans; [| apply Hcount; exact Hm].
  subst g' first. by rewrite GetGameData_leaves_snapshot_messages.
Qed.

Lemma erase_unless_sublist {A : Type} (eval : A -> outcome) (l : list A) :
  fst (erase_unless eval l) `sublist_of` l.
Proof.
  induction l as [| a l IH]; [done |]. cbn [erase_unless].
  destruct (eval a) as [[|] | what].
  - rewrite (erase_unless_split eval l). cbn [fst]. by apply sublist_skip.
  - by apply sublist_cons.
  - done.
Qed.

(** X3.  The filter of the global messages never reorders, duplicates or
    invents a message: the snapshot's global messages are a sublist of the
    loaded messages followed by the injected ones, with at most one
    message appended, the error message of the global [catch]. *)
Theorem X3_global_messages_are_a_sublist (s : State) :
  let g1 := LoadPlugins true (game s) in
  let g0 := LoadUserlist (LoadMasterlist g1) in
  let language := language_code g0 in
  ∃ kept tail,
    gn_globalMessages (fst (GetGameData s)) = kept ++ tail
    ∧ kept `sublist_of`
           (ml_messages (masterlist g0)
            ++ flat_map (injected language g0) (installed_plugins g1))
    ∧ (tail = [] ∨ ∃ what, tail = [global_condition_error what]).
Proof.
  intros g1 g0 language.
  pose proof (global_messages_after s) as Hafter. cbn zeta in Hafter.
  fold g1 g0 language in Hafter.
  eexists _, _. split; [exact Hafter | split; [apply erase_unless_sublist |]].
  destruct (snd _) as [what |]; [right; by exists what | by left].
Qed.

(** A node's own fields are the same from any two states that differ in
    the global messages only. *)
Lemma plugin_node_same_metadata (language : nat) (plugin : Plugin) (s s' : State) :
  same_metadata (game s) (game s') →
  let node := fst (plugin_node language plugin s) in
  let node' := fst (plugin_node language plugin s') in
  n_name node' = n_name node
  ∧ n_crc node' = n_crc node
  ∧ n_version node' = n_version node
  ∧ n_masterlist node' = n_masterlist node
  ∧ n_userlist node' = n_userlist node
  ∧ n_modPriority node' = n_modPriority node
  ∧ n_isGlobalPriority node' = n_isGlobalPriority node
  ∧ n_tags node' = n_tags node
  ∧ n_isDirty node' = n_isDirty node.
Proof.
  intros [msgs Hg]. cbn zeta.
  pose proof (plugin_node_eq language plugin s) as Hp. cbn zeta in Hp.
  pose proof (resolve_eq language plugin s) as Hr. cbn zeta in Hr.
  pose proof (plugin_node_eq language plugin s') as Hp'. cbn zeta in Hp'.
  pose proof (resolve_eq language plugin s') as Hr'. cbn zeta in Hr'.
  rewrite Hr in Hp. rewrite Hr' in Hp'. rewrite Hp, Hp', Hg.
  repeat split.
Qed.

(** X4.  A plugin's node does not depend on the plugins processed before
    it: whatever failures were caught and whatever messages were injected
    on the way, its name, checksum, version, the two layer sub-nodes, the
    priority fields, the tags and the dirty flag are those the handler
    builds for that plugin alone from the loaded state. *)
Theorem X4_nodes_are_independent (s : State) (i : nat) (plugin : Plugin) :
  let g1 := LoadPlugins true (game s) in
  let g0 := LoadUserlist (LoadMasterlist g1) in
  let language := language_code g0 in
  let alone := fst (plugin_node language plugin (mkState g0 [])) in
  installed_plugins g1 !! i = Some plugin →
  ∃ node,
    gn_plugins (fst (GetGameData s)) !! i = Some node
    ∧ n_name node = n_name alone
    ∧ n_crc node = n_crc alone
    ∧ n_version node = n_version alone
    ∧ n_masterlist node = n_masterlist alone
    ∧ n_userlist node = n_userlist alone
    ∧ n_modPriority node = n_modPriority alone
    ∧ n_isGlobalPriority node = n_isGlobalPriority alone
    ∧ n_tags node = n_tags alone
    ∧ n_isDirty node = n_isDirty alone.
Proof.
  intros g1 g0 language alone Hi.
  pose proof (GetGameData_eq s) as HG. cbn zeta in HG. fold g1 g0 language in HG.
  destruct (for_each_plugin_node language (installed_plugins g1) (mkState g0 (calls s)))
    as (_ & _ & Hnodes).
  cbn [game] in Hnodes.
  destruct (Forall2_lookup_l _ _ _ _ _ Hnodes Hi) as (node & Hnode & s_p & Hsame & ->).
  exists (fst (plugin_node language plugin s_p)).
  split; [by rewrite HG |].
  exact (plugin_node_same_metadata language plugin (mkState g0 []) s_p Hsame).
Qed.

End PipelineExtras.

(** ** The conflict query *)

Section ConflictExtras.

Context `{!Externals}.

Lemma conflict_names_spec (target : Plugin) (ps : list (string * Plugin)) (name : string) :
  name ∈ map fst (filter (fun e => DoFormIDsOverlap target (snd e)) ps)
  ↔ ∃ other, (name, other) ∈ ps ∧ DoFormIDsOverlap target other = true.
Proof.
  rewrite list_elem_of_fmap. split.
  - intros ([k other] & -> & [Hov Hin]%list_elem_of_filter).
    exists other. split; [done | by apply Is_true_true].
  - intros (other & Hin & Hov). exists (name, other). split; [done |].
    apply list_elem_of_filter. split; [by apply Is_true_true | done].
Qed.

Lemma DoFormIDsOverlap_sym (p other : Plugin) :
  DoFormIDsOverlap p other = DoFormIDsOverlap other p.
Proof. unfold DoFormIDsOverlap. by rewrite (comm_L (∩)). Qed.

Lemma unique_key_value (ps : list (string * Plugin)) (k : string) (p q : Plugin) :
  NoDup (map fst ps) → (k, p) ∈ ps → (k, q) ∈ ps → p = q.
Proof.
  induction ps as [| [k' r] ps IH]; [by intros _ ?%elem_of_nil |].
  cbn [map fst]. intros [Hnot Hnd]%NoDup_cons Hp Hq.
  apply elem_of_cons in Hp as [Hp | Hp]; apply elem_of_cons in Hq as [Hq | Hq].
  - congruence.
  - injection Hp as -> ->. destruct Hnot. apply list_elem_of_fmap. by exists (k', q).
  - injection Hq as -> ->. destruct Hnot. apply list_elem_of_fmap. by exists (k', p).
  - by apply IH.
Qed.

(** X5.  Conflicts are mutual.  On a registry with unique keys whose first
    entry has FormIDs in memory, the query for one registry plugin lists a
    second one exactly when the query for the second lists the first. *)
Theorem X5_conflicts_are_mutual
        (s : State) (first : string * Plugin) (rest : list (string * Plugin))
        (n1 n2 k1 k2 : string) (t1 t2 : Plugin)
        (Hreg : plugins (game s) = first :: rest)
        (Hloaded : FormIDs (snd first) ≠ ∅)
        (Hkeys : NoDup (map fst (plugins (game s))))
        (H1 : find_plugin n1 (plugins (game s)) = Some (k1, t1))
        (H2 : find_plugin n2 (plugins (game s)) = Some (k2, t2)) :
  ∃ names1 names2,
    fst (getConflictingPlugins n1 s) = Success names1
    ∧ fst (getConflictingPlugins n2 s) = Success names2
    ∧ (k2 ∈ names1 ↔ k1 ∈ names2).
Proof.
  rewrite !(getConflictingPlugins_loaded _ s first rest Hreg Hloaded), H1, H2.
  rewrite (deref_found n1 k1 t1), (deref_found n2 k2 t2) by done.
  eexists _, _. split; [done | split; [done |]]. cbn [fst].
  rewrite !conflict_names_spec.
  pose proof (find_plugin_in _ _ _ _ H1) as Hin1.
  pose proof (find_plugin_in _ _ _ _ H2) as Hin2.
  split; intros (other & Hin & Hov).
  - rewrite (unique_key_value _ _ _ _ Hkeys Hin Hin2) in Hov.
    exists t1. split; [done |]. by rewrite DoFormIDsOverlap_sym.
  - rewrite (unique_key_value _ _ _ _ Hkeys Hin Hin1) in Hov.
    exists t2. split; [done |]. by rewrite DoFormIDsOverlap_sym.
Qed.

(** The game a query leaves. *)
Lemma getConflictingPlugins_game
      (pluginName : string) (s : State)
      (first : string * Plugin) (rest : list (string * Plugin)) :
  plugins (game s) = first :: rest →
  game (snd (getConflictingPlugins pluginName s))
  = (if (size (FormIDs (snd first)) =? 0)%nat
     then LoadPlugins false (game s)
     else game s).
Proof.
  intros Hreg. unfold getConflictingPlugins. run_handler. rewrite Hreg.
  destruct (size (FormIDs (snd first)) =? 0)%nat; cbn [game];
    destruct (fst <$> find_plugin pluginName (first :: rest)) as [key |]; try done;
    by destruct (deref key _).
Qed.

(** X6.  The names a query returns are a sublist of the keys of the
    registry as the query leaves it: registry order, no name twice for one
    entry, no name that is not a key.  This holds whether or not the bulk
    load ran. *)
Theorem X6_conflicts_in_registry_order
        (pluginName : string) (s : State) (names : list string) :
  fst (getConflictingPlugins pluginName s) = Success names →
  names `sublist_of` map fst (plugins (game (snd (getConflictingPlugins pluginName s)))).
Proof.
  unfold getConflictingPlugins. run_handler.
  destruct (plugins (game s)) as [| first rest] eqn:Hreg; [done |].
  set (pluginIt := fst <$> find_plugin pluginName (first :: rest)).
  destruct (size (FormIDs (snd first)) =? 0)%nat; cbn [game fst snd];
    destruct pluginIt as [key |];
    try (intros [= <-]; apply sublist_nil_l);
    (destruct (deref key _) as [target |]; [| done]);
    intros [= <-]; cbn [fst snd game]; apply fmap_sublist, sublist_filter.
Qed.

(** X7.  The load trigger is a test of the first entry, not a flag: while
    the first registry entry has no FormIDs in memory, also after the bulk
    load, every query runs the bulk load again. *)
Theorem X7_bulk_load_repeats
        (n1 n2 : string) (s : State)
        (first first' : string * Plugin) (rest rest' : list (string * Plugin))
        (Hreg : plugins (game s) = first :: rest)
        (Hempty : FormIDs (snd first) = ∅)
        (Hreg' : plugins (LoadPlugins false (game s)) = first' :: rest')
        (Hempty' : FormIDs (snd first') = ∅) :
  game (snd (getConflictingPlugins n2 (snd (getConflictingPlugins n1 s))))
  = LoadPlugins false (LoadPlugins false (game s)).
Proof.
  pose proof (getConflictingPlugins_game n1 s first rest Hreg) as Hg1.
  rewrite Hempty, size_empty in Hg1. cbn [Nat.eqb] in Hg1.
  rewrite (getConflictingPlugins_game n2 _ first' rest') by (by rewrite Hg1).
  by rewrite Hempty', size_empty, Hg1.
Qed.

End ConflictExtras.

(** ** The userlist and clipboard requests *)

Section RequestExtras.

Context `{!Externals} `{!Platform}.

Lemma erase_first_others {A : Type} (same : A -> bool) (l : list A) :
  List.filter (fun x => negb (same x)) (erase_first same l)
  = List.filter (fun x => negb (same x)) l.
Proof.
  induction l as [| x l IH]; [done |]. cbn [erase_first List.filter].
  destruct (same x) eqn:Hx; cbn [negb List.filter]; [done |].
  by rewrite Hx, IH.
Qed.

Lemma erase_first_matches {A : Type} (same : A -> bool) (l : list A) :
  length (List.filter same (erase_first same l))
  = pred (length (List.filter same l)).
Proof.
  induction l as [| x l IH]; [done |]. cbn [erase_first List.filter].
  destruct (same x) eqn:Hx; cbn [List.filter length pred]; [done |].
  by rewrite Hx.
Qed.

Lemma erase_first_absent {A : Type} (same : A -> bool) (l : list A) :
  (∀ x, x ∈ l → same x = false) → erase_first same l = l.
Proof.
  induction l as [| x l IH]; intros Hall; [done |]. cbn [erase_first].
  rewrite (Hall x) by apply list_elem_of_here.
  f_equal. apply IH. intros y Hy. apply Hall. by right.
Qed.

Lemma erase_first_split {A : Type} (same : A -> bool)
      (pre : list A) (x : A) (post : list A) :
  (∀ y, y ∈ pre → same y = false) →
  same x = true →
  erase_first same (pre ++ x :: post) = pre ++ post.
Proof.
  intros Hpre Hx. induction pre as [| y pre IH]; cbn [app erase_first].
  - by rewrite Hx.
  - rewrite (Hpre y) by apply list_elem_of_here.
    f_equal. apply IH. intros z Hz. apply Hpre. by right.
Qed.

(** X8.  [clearPluginMetadata] always answers success.  It removes one
    userlist entry of that name, the first in list order, and no more:
    what precedes the first entry of that name and what follows it stay
    as they are (so a later entry of the same name survives), the entries
    of other names keep their order, the number of entries of that name
    goes down by one, and when there is none the world is left exactly as
    it was.  Registry, masterlist and effects are never touched.  From
    the userlist "b.esp", "a.esp" (userlist entry), "a.esp" (a second
    entry), clearing "a.esp" leaves "b.esp" and the second entry. *)
Theorem X8_clearPluginMetadata_removes_first_match (pluginName : string) (w : World) :
  let same := fun p => name_eqb (Name p) pluginName in
  let g := game (app_state w) in
  let out := clearPluginMetadata pluginName w in
  let g' := game (app_state (after out)) in
  completion out = Returns true
  ∧ replies out = [reply_Success ""]
  ∧ (∀ pre p post,
       ml_plugins (userlist g) = pre ++ p :: post →
       (∀ q, q ∈ pre → same q = false) →
       same p = true →
       ml_plugins (userlist g') = pre ++ post)
  ∧ List.filter (fun p => negb (same p)) (ml_plugins (userlist g'))
    = List.filter (fun p => negb (same p)) (ml_plugins (userlist g))
  ∧ length (List.filter same (ml_plugins (userlist g')))
    = pred (length (List.filter same (ml_plugins (userlist g))))
  ∧ ((∀ p, p ∈ ml_plugins (userlist g) → same p = false) → after out = w)
  ∧ plugins g' = plugins g
  ∧ masterlist g' = masterlist g
  ∧ ml_messages (userlist g') = ml_messages (userlist g)
  ∧ effects (after out) = effects w
  ∧ ml_plugins
      (userlist
         (game (app_state (after (clearPluginMetadata (H := Demo.externals) "a.esp"
                                                      Sample.doubled_userlist)))))
    = [Demo.b_esp; Demo.masterlist_a].
Proof.
  intros same g out g'. subst out g'. unfold clearPluginMetadata.
  cbn [completion replies after finish set_game set_userlist app_state game
       userlist ml_plugins ml_messages plugins masterlist effects].
  fold g. fold same.
  repeat split; try done.
  - intros pre p post -> Hpre Hp. by apply erase_first_split.
  - apply erase_first_others.
  - apply erase_first_matches.
  - intros Habsent. rewrite erase_first_absent by done. subst g.
    by destruct w as [[[folder registry mlist [entries msgs]] log] fx].
Qed.

(** X9.  [copyMetadata] answers exactly once and never changes the
    application state.  The clipboard calls are made in the order open,
    empty, set, close, and each is made only if every call before it
    succeeded: the effects are exactly the calls up to and including the
    first one that fails.  The answer is the failure (code -1) naming the
    first call that failed, and success exactly when all four succeed.
    The clipboard is closed only when opening, emptying and setting all
    succeeded: when emptying or setting fails, the clipboard that was
    opened is left open. *)
Theorem X9_copyMetadata_clipboard_protocol (pluginName : string) (w : World) :
  let text := metadata_text (game (app_state w)) pluginName in
  let out := copyMetadata pluginName w in
  effects (after out)
  = effects w
    ++ fx_OpenClipboard
       :: (if OpenClipboard_ok then
             fx_EmptyClipboard
             :: (if EmptyClipboard_ok then
                   fx_SetClipboardData text
                   :: (if SetClipboardData_ok text then [fx_CloseClipboard] else [])
                 else [])
           else [])
  ∧ replies out
    = [if negb OpenClipboard_ok then
         reply_Failure (-1) "Failed to open the Windows clipboard."
       else if negb EmptyClipboard_ok then
         reply_Failure (-1) "Failed to empty the Windows clipboard."
       else if negb (SetClipboardData_ok text) then
         reply_Failure (-1) "Failed to copy metadata to the Windows clipboard."
       else if negb CloseClipboard_ok then
         reply_Failure (-1) "Failed to close the Windows clipboard."
       else reply_Success ""]
  ∧ completion out = Returns true
  ∧ length (replies out) = 1%nat
  ∧ app_state (after out) = app_state w
  ∧ (replies out = [reply_Success ""]
     ↔ OpenClipboard_ok && EmptyClipboard_ok && SetClipboardData_ok text
       && CloseClipboard_ok = true)
  ∧ ∃ fx,
      effects (after out) = effects w ++ fx
      ∧ fx `prefix_of` [fx_OpenClipboard; fx_EmptyClipboard;
                        fx_SetClipboardData text; fx_CloseClipboard]
      ∧ (fx_CloseClipboard ∈ fx
         ↔ OpenClipboard_ok && EmptyClipboard_ok && SetClipboardData_ok text = true)
      ∧ (fx_OpenClipboard ∈ fx).
Proof.
  intros text out. subst out. unfold copyMetadata. fold text.
  destruct OpenClipboard_ok, EmptyClipboard_ok, (SetClipboardData_ok text),
    CloseClipboard_ok;
    cbn [negb andb completion replies after finish add_effects app_state effects length];
    (split; [by rewrite <- ?app_assoc | split; [done |]]);
    (split; [done | split; [done | split; [done | split; [by split |]]]]);
    rewrite <- ?app_assoc; cbn [app];
    (eexists; split; [reflexivity |]);
    (split; [by eexists |]);
    (split; [| apply list_elem_of_here]);
    (split; [try done; intros Hin; exfalso;
             repeat (apply elem_of_cons in Hin as [Hin | Hin]; [discriminate Hin |]);
             by apply elem_of_nil in Hin
            | intros Hb;
              first [discriminate Hb
                    | repeat first [apply list_elem_of_here
                                   | apply list_elem_of_further]]]).
Qed.

Lemma installed_games_fold (games : list Game) (items : list Yaml) :
  fold_left (fun temp game =>
               if IsInstalled game
               then push_back temp (YScalar (FolderName game))
               else temp)
            games (YSequence items)
  = YSequence (items ++ map (fun game => YScalar (FolderName game))
                            (List.filter IsInstalled games)).
Proof.
  revert items. induction games as [| game games IH]; intros items;
    cbn [fold_left List.filter].
  - by rewrite app_nil_r.
  - destruct (IsInstalled game); [| apply IH].
    cbn [push_back map]. rewrite IH. by rewrite <- app_assoc.
Qed.

(** X10.  [GetInstalledGames] serialises the folder names of the installed
    games, in the order of the list of games, skipping those that are not
    installed; when no game is installed the node it serialises is still
    the null node, not an empty sequence. *)
Theorem X10_installed_games_node :
  installed_games_node
  = match List.filter IsInstalled InstalledGames with
    | [] => YNull
    | games => YSequence (map (fun game => YScalar (FolderName game)) games)
    end.
Proof.
  unfold installed_games_node.
  induction InstalledGames as [| game games IH]; [done |].
  cbn [fold_left List.filter]. destruct (IsInstalled game); [| exact IH].
  cbn [push_back]. by rewrite installed_games_fold.
Qed.

End RequestExtras.

(** ** The list of open browsers *)

Lemma erase_first_in (b : nat) (l : list nat) :
  b ∈ l → l ≡ₚ b :: erase_first (Nat.eqb b) l.
Proof.
  induction l as [| x l IH]; [by intros ?%elem_of_nil |]. cbn [erase_first].
  destruct (Nat.eqb_spec b x) as [-> | Hne]; [done |].
  intros [? | Hin]%elem_of_cons; [done |].
  rewrite (IH Hin) at 1. apply Permutation_swap.
Qed.

Lemma created_browsers (created : list nat) (h : LootHandler) :
  fold_left (fun h b => OnAfterCreated b h) created h
  = mkLootHandler (browser_list_ h ++ created) (is_closing_ h)
                  (match created with [] => has_router h | _ => true end)
                  (quit_calls h).
Proof.
  revert h. induction created as [| b created IH]; intros h; cbn [fold_left].
  - rewrite app_nil_r. by destruct h.
  - rewrite IH. cbn [OnAfterCreated browser_list_ is_closing_ has_router quit_calls].
    rewrite <- app_assoc. by destruct created.
Qed.

Lemma close_each_all (closed : list nat) (h : LootHandler) :
  has_router h = true →
  closed ≠ [] →
  closed ≡ₚ browser_list_ h →
  ∃ h', close_each closed h = Some h'
        ∧ browser_list_ h' = []
        ∧ quit_calls h' = S (quit_calls h)
        ∧ (∀ k h'', (k < length closed)%nat →
                    close_each (take k closed) h = Some h'' →
                    quit_calls h'' = quit_calls h).
Proof.
  revert h. induction closed as [| c closed IH]; intros h Hrouter Hne Hperm; [done |].
  cbn [close_each]. unfold OnBeforeClose. rewrite Hrouter.
  set (remaining := erase_first (Nat.eqb c) (browser_list_ h)).
  assert (Hrem : closed ≡ₚ remaining).
  { apply (Permutation_cons_inv (a := c)). rewrite Hperm.
    apply erase_first_in. rewrite <- Hperm. apply list_elem_of_here. }
  destruct closed as [| c' closed'].
  - apply Permutation_nil_l in Hrem. rewrite <- Hrem. cbn [length Nat.eqb close_each].
    eexists. split; [done | split; [done | split; [done |]]].
    intros k h'' Hk. assert (k = 0%nat) as -> by (cbn in Hk; lia).
    cbn [take close_each]. by intros [= <-].
  - assert (Hlen : (length remaining =? 0)%nat = false).
    { apply Nat.eqb_neq. rewrite <- Hrem. cbn [length]. lia. }
    rewrite Hlen.
    destruct (IH (mkLootHandler remaining (is_closing_ h) true (quit_calls h)))
      as (h' & Hclose & Hlist & Hquit & Hbefore); [done | done | done |].
    exists h'. split; [done | split; [done | split; [done |]]].
    intros [| k] h'' Hk; cbn [take close_each].
    + by intros [= <-].
    + unfold OnBeforeClose. rewrite Hrouter. fold remaining. rewrite Hlen.
      intros Hk'. apply (Hbefore k h'') in Hk'; [done | cbn [length] in *; lia].
Qed.

(** X11.  Browsers that were created, each once, and are then all closed,
    in any order: every [OnBeforeClose] is defined, the list of browsers
    ends empty, and [CefQuitMessageLoop] is called exactly once, at the
    last close and not before. *)
Theorem X11_quit_at_the_last_close (created closed : list nat) :
  created ≠ [] →
  closed ≡ₚ created →
  let opened := fold_left (fun h b => OnAfterCreated b h) created LootHandler_ in
  ∃ h, close_each closed opened = Some h
       ∧ browser_list_ h = []
       ∧ quit_calls h = 1%nat
       ∧ (∀ k h', (k < length closed)%nat →
                  close_each (take k closed) opened = Some h' →
                  quit_calls h' = 0%nat).
Proof.
  intros Hne Hperm opened. subst opened. rewrite created_browsers.
  cbn [LootHandler_ browser_list_ is_closing_ has_router quit_calls app].
  destruct created as [| b created]; [done |].
  apply (close_each_all closed (mkLootHandler (b :: created) false true 0)); [done | | done].
  intros ->. by apply Permutation_nil_l in Hperm.
Qed.

(** ** The dispatcher *)

Section DispatchExtras.

Context `{!Externals} `{!Platform}.

Lemma served_finish (r : Reply) (w : World) : served (finish true [r] w).
Proof. by split. Qed.

Lemma served_guarded (action : World -> World * option exn) (w : World) :
  served (guarded action w).
Proof. unfold guarded. by destruct (action w) as [w' [e |]]. Qed.

Lemma served_reply_game_data (w : World) : served (reply_game_data w).
Proof. unfold reply_game_data. by destruct (GetGameData _). Qed.

Lemma served_query_conflicts (pluginName : string) (w : World) :
  served (query_conflicts pluginName w).
Proof.
  unfold query_conflicts. by destruct (getConflictingPlugins _ _) as [[names | why] st].
Qed.

Lemma served_copyMetadata (pluginName : string) (w : World) :
  served (copyMetadata pluginName w).
Proof.
  unfold copyMetadata.
  by destruct OpenClipboard_ok, EmptyClipboard_ok, (SetClipboardData_ok _),
       CloseClipboard_ok.
Qed.

Lemma served_with_arg0 (req : Request) (k : string -> Outcome) (w : World) :
  (∀ arg, served (k arg)) → served (with_arg0 req k w).
Proof. intros Hk. unfold with_arg0. by destruct (req_arg0 req). Qed.

Ltac literal_in_list :=
  repeat first [apply list_elem_of_here | apply list_elem_of_further].

Ltac case_request name :=
  match goal with
  | |- context [String.eqb name ?literal] =>
      destruct (String.eqb_spec name literal) as [-> | ?]
  end.

(** A request that is none of the plain ones goes to the final block. *)
Lemma OnQuery_named (request : string) (w : World) :
  request ∉ plain_requests → OnQuery request w = named_request request w.
Proof.
  intros Hplain. unfold OnQuery.
  repeat (case_request request; [destruct Hplain; literal_in_list |]).
  reflexivity.
Qed.

Lemma OnQuery_plain (request : string) (w : World) :
  request ∈ plain_requests → served (OnQuery request w).
Proof.
  intros Hin. unfold OnQuery.
  repeat (case_request request;
          [first [apply served_guarded | apply served_reply_game_data
                 | apply served_finish] |]).
  exfalso. unfold plain_requests in Hin.
  repeat (apply elem_of_cons in Hin as [-> | Hin]; [done |]).
  by apply elem_of_nil in Hin.
Qed.

Lemma dispatch_served (name : string) (req : Request) (w : World) :
  name ∈ named_requests → served (dispatch name req w).
Proof.
  intros Hin. unfold dispatch.
  repeat (case_request name;
          [apply served_with_arg0; intros arg;
           first [apply served_finish | apply served_reply_game_data
                 | apply served_query_conflicts | apply served_copyMetadata
                 | done] |]).
  exfalso. unfold named_requests in Hin.
  repeat (apply elem_of_cons in Hin as [-> | Hin]; [done |]).
  by apply elem_of_nil in Hin.
Qed.

Lemma dispatch_declined (name : string) (req : Request) (w : World) :
  name ∉ named_requests → dispatch name req w = finish false [] w.
Proof.
  intros Hnot. unfold dispatch.
  repeat (case_request name; [destruct Hnot; literal_in_list |]).
  reflexivity.
Qed.

(** X12.  Every call of [OnQuery] that returns true has called the
    callback exactly once, with success or with failure; a call that
    returns false, lets an exception out or is undefined has not called
    it.  (External calls are taken not to throw.) *)
Theorem X12_one_answer_per_handled_request (request : string) (w : World) :
  answered_iff_handled (OnQuery request w).
Proof.
  destruct (decide (request ∈ plain_requests)) as [Hin | Hnot].
  - by apply OnQuery_plain.
  - rewrite OnQuery_named by done. unfold named_request.
    destruct (JSON_parse request) as [req | what]; [| done].
    destruct (req_name req) as [name |]; [| done].
    destruct (decide (name ∈ named_requests)) as [Hnamed | Hnamed].
    + by apply dispatch_served.
    + by rewrite dispatch_declined.
Qed.

(** X13.  The requests [OnQuery] declines (returns false for) are exactly
    those that are none of the ten plain requests, parse as JSON, carry a
    name, and whose name is none of the five named requests.  A plain
    request is recognised on its text alone, whatever the parser would
    make of it. *)
Theorem X13_declined_requests (request : string) (w : World) :
  completion (OnQuery request w) = Returns false
  ↔ ((request ∉ plain_requests)
     ∧ ∃ req name,
         JSON_parse request = parse_ok req
         ∧ req_name req = Some name
         ∧ name ∉ named_requests).
Proof.
  split.
  - intros Hfalse.
    destruct (decide (request ∈ plain_requests)) as [Hin | Hnot].
    { by destruct (OnQuery_plain request w Hin) as [Hne _]. }
    split; [done |]. rewrite OnQuery_named in Hfalse by done.
    unfold named_request in Hfalse.
    destruct (JSON_parse request) as [req | what] eqn:Hparse; [| done].
    destruct (req_name req) as [name |] eqn:Hname; [| done].
    exists req, name. split; [done | split; [done |]].
    intros Hin. by destruct (dispatch_served name req w Hin) as [Hne _].
  - intros (Hnot & req & name & Hparse & Hname & Hnamed).
    rewrite OnQuery_named by done. unfold named_request.
    by rewrite Hparse, Hname, dispatch_declined.
Qed.

Lemma guarded_state (action : World -> World * option exn) (w : World) :
  app_state (fst (action w)) = app_state w →
  app_state (after (guarded action w)) = app_state w.
Proof. unfold guarded. by destruct (action w) as [w' [e |]]. Qed.

Lemma copyMetadata_state (pluginName : string) (w : World) :
  app_state (after (copyMetadata pluginName w)) = app_state w.
Proof.
  unfold copyMetadata.
  by destruct OpenClipboard_ok, EmptyClipboard_ok, (SetClipboardData_ok _),
       CloseClipboard_ok.
Qed.

Ltac literal_not_in_list H :=
  exfalso;
  repeat (apply elem_of_cons in H as [H | H]; [discriminate H |]);
  by apply elem_of_nil in H.

Ltac excluded_not_in_list H :=
  exfalso;
  repeat (apply elem_of_cons in H as [-> | H]; [done |]);
  by apply elem_of_nil in H.

(** X14.  Only five requests can change the application state:
    [getGameData], [clearAllMetadata], and the named requests
    [changeGame], [getConflictingPlugins] and [clearPluginMetadata].
    Every other request, handled or not, well-formed or not, leaves the
    game and the record of calls exactly as they were; this includes
    [copyMetadata] and [find]. *)
Theorem X14_other_requests_keep_the_state (request : string) (w : World) :
  (request ∈ passive_plain_requests
   ∨ ((request ∉ plain_requests)
      ∧ ∀ req name,
          JSON_parse request = parse_ok req →
          req_name req = Some name →
          name ∉ game_requests)) →
  app_state (after (OnQuery request w)) = app_state w.
Proof.
  intros [Hin | [Hnot Hnames]].
  - unfold OnQuery, passive_plain_requests in *.
    repeat (case_request request;
            [first [by apply guarded_state | done | literal_not_in_list Hin] |]).
    excluded_not_in_list Hin.
  - rewrite OnQuery_named by done. unfold named_request.
    destruct (JSON_parse request) as [req | what] eqn:Hparse; [| done].
    destruct (req_name req) as [name |] eqn:Hname; [| done].
    specialize (Hnames req name eq_refl Hname).
    unfold dispatch, with_arg0, game_requests in *.
    repeat (case_request name;
            [first [by destruct Hnames; literal_in_list
                   | destruct (req_arg0 req); first [done | apply copyMetadata_state]] |]).
    done.
Qed.

(** X15.  [changeGame] is [getGameData] after the change: a well-formed
    [changeGame] request ends exactly as the plain request [getGameData]
    does in the world where the current game has been changed, reply,
    window title and state included. *)
Theorem X15_changeGame_then_game_data
        (request : string) (w : World) (req : Request) (folder : string) :
  request ∉ plain_requests →
  JSON_parse request = parse_ok req →
  req_name req = Some "changeGame" →
  req_arg0 req = Some folder →
  OnQuery request w
  = OnQuery "getGameData" (set_game w (ChangeGame folder (game (app_state w)))).
Proof.
  intros Hnot Hparse Hname Harg.
  rewrite OnQuery_named by done. unfold named_request.
  rewrite Hparse, Hname. unfold dispatch, with_arg0. by rewrite Harg.
Qed.

Lemma guarded_never_escapes (action : World -> World * option exn) (w : World) :
  never_escapes (guarded action w).
Proof. unfold guarded. by destruct (action w) as [w' [e |]]. Qed.

Lemma reply_game_data_never_escapes (w : World) : never_escapes (reply_game_data w).
Proof. unfold reply_game_data. by destruct (GetGameData _). Qed.

Lemma query_conflicts_never_escapes (pluginName : string) (w : World) :
  never_escapes (query_conflicts pluginName w).
Proof.
  unfold query_conflicts. by destruct (getConflictingPlugins _ _) as [[names | why] st].
Qed.

Lemma copyMetadata_never_escapes (pluginName : string) (w : World) :
  never_escapes (copyMetadata pluginName w).
Proof.
  unfold copyMetadata.
  by destruct OpenClipboard_ok, EmptyClipboard_ok, (SetClipboardData_ok _),
       CloseClipboard_ok.
Qed.

(** X16.  A request that cannot be served as it stands changes nothing.
    When an exception leaves [OnQuery] (the parsed request lacks its name
    or its argument), the world is exactly as before: no effect was made,
    not even the cancelling of a running search that a complete [find]
    request starts with.  When a request that is not a plain one fails to
    parse, the answer is the failure with code -1 and the parser's
    message, and again nothing has changed. *)
Theorem X16_incomplete_requests_change_nothing (request : string) (w : World) :
  (∀ e, completion (OnQuery request w) = Escapes e → after (OnQuery request w) = w)
  ∧ ((request ∉ plain_requests) →
     ∀ what, JSON_parse request = parse_error what →
             OnQuery request w = finish true [reply_Failure (-1) what] w).
Proof.
  split.
  - intros e.
    destruct (decide (request ∈ plain_requests)) as [Hin | Hnot].
    + unfold OnQuery, plain_requests in *.
      repeat (case_request request;
              [first [by intros ?%guarded_never_escapes
                     | by intros ?%reply_game_data_never_escapes
                     | done] |]).
      excluded_not_in_list Hin.
    + rewrite OnQuery_named by done. unfold named_request.
      destruct (JSON_parse request) as [req | what]; [| done].
      destruct (req_name req) as [name |]; [| done].
      unfold dispatch, with_arg0.
      repeat (case_request name;
              [destruct (req_arg0 req);
               first [by intros ?%reply_game_data_never_escapes
                     | by intros ?%query_conflicts_never_escapes
                     | by intros ?%copyMetadata_never_escapes
                     | done] |]).
      done.
  - intros Hnot what Hparse. rewrite OnQuery_named by done.
    unfold named_request. by rewrite Hparse.
Qed.

End DispatchExtras.

(** ** Lookup after [clearPluginMetadata] *)

Section LookupAfterClear.

Context `{!Externals} `{!Platform}.

Lemma find_absent {A : Type} (f : A -> bool) (l : list A) :
  (∀ x, x ∈ l → f x = false) → List.find f l = None.
Proof.
  induction l as [| x l IH]; intros Hall; [done |]. cbn [List.find].
  rewrite (Hall x) by apply list_elem_of_here.
  apply IH. intros y Hy. apply Hall. by right.
Qed.

Lemma filter_empty_absent {A : Type} (f : A -> bool) (l : list A) :
  length (List.filter f l) = 0%nat → ∀ x, x ∈ l → f x = false.
Proof.
  induction l as [| y l IH]; [by intros _ x ?%elem_of_nil |].
  cbn [List.filter]. destruct (f y) eqn:Hy; [done |].
  intros Hlen x [-> | Hx]%elem_of_cons; [done | by apply IH].
Qed.

(** X17.  When the userlist holds at most one entry for a plugin, then
    after [clearPluginMetadata] for it no userlist entry has that name, and
    looking the plugin up in the userlist gives the name-only record. *)
Theorem X17_cleared_plugin_is_not_found (pluginName : string) (w : World) :
  let same := fun p => name_eqb (Name p) pluginName in
  let g := game (app_state w) in
  let g' := game (app_state (after (clearPluginMetadata pluginName w))) in
  (length (List.filter same (ml_plugins (userlist g))) ≤ 1)%nat →
  (∀ p, p ∈ ml_plugins (userlist g') → same p = false)
  ∧ FindPlugin (userlist g') pluginName = Plugin_ pluginName.
Proof.
  intros same g g' Hone.
  assert (Hnone : ∀ p, p ∈ ml_plugins (userlist g') → same p = false).
  { apply filter_empty_absent. subst g'. unfold clearPluginMetadata.
    cbn [after finish set_game set_userlist app_state game userlist ml_plugins].
    fold g. fold same. rewrite erase_first_matches. lia. }
  split; [exact Hnone |].
  unfold FindPlugin. fold same. by rewrite find_absent.
Qed.

End LookupAfterClear.

(** ** The further properties on the concrete installations *)

(** X2 for the error message injected for "a.esp" on the concrete
    installation, whose loads read nothing: one copy after the first
    request, two after the second. *)
Lemma X2_witness :
  (count_occ Message_eq_dec
             (gn_globalMessages
                (fst (GetGameData (H := Demo.externals)
                                  (snd (GetGameData (H := Demo.externals) Demo.start)))))
             (plugin_condition_error (H := Demo.externals) "a.esp" "syntax error")
   ≥ count_occ Message_eq_dec
               (gn_globalMessages (fst (GetGameData (H := Demo.externals) Demo.start)))
               (plugin_condition_error (H := Demo.externals) "a.esp" "syntax error")
     + count_occ Message_eq_dec
                 (flat_map
                    (injected (H := Demo.externals) 0
                              (game (snd (GetGameData (H := Demo.externals) Demo.start))))
                    (installed_plugins
                       (H := Demo.externals)
                       (game (snd (GetGameData (H := Demo.externals) Demo.start)))))
                 (plugin_condition_error (H := Demo.externals) "a.esp" "syntax error"))%nat
  ∧ count_occ Message_eq_dec
              (gn_globalMessages (fst (GetGameData (H := Demo.externals) Demo.start)))
              (plugin_condition_error (H := Demo.externals) "a.esp" "syntax error")
    = 1%nat
  ∧ count_occ Message_eq_dec
              (gn_globalMessages
                 (fst (GetGameData (H := Demo.externals)
                                   (snd (GetGameData (H := Demo.externals) Demo.start)))))
              (plugin_condition_error (H := Demo.externals) "a.esp" "syntax error")
    = 2%nat.
Proof.
  split; [| split; vm_compute; reflexivity].
  refine (@X2_kept_messages_pile_up
            Demo.externals Demo.start
            (plugin_condition_error (H := Demo.externals) "a.esp" "syntax error")
            eq_refl eq_refl eq_refl _).
  vm_compute. discriminate.
Defined.

(** X4 for "b.esp", the second plugin of the concrete load order, which
    is processed after the evaluation of "a.esp" has failed and a message
    has been injected. *)
Lemma X4_witness :
  evaluation_failure (H := Demo.externals) 0 Demo.game Demo.a_esp = Some "syntax error"
  ∧ ∃ node,
      gn_plugins (fst (GetGameData (H := Demo.externals) Demo.start)) !! 1%nat
      = Some node
      ∧ n_name node = "b.esp"
      ∧ n_tags node
        = n_tags (fst (plugin_node (H := Demo.externals) 0 Demo.b_esp
                                   (mkState Demo.game []))).
Proof.
  split; [vm_compute; reflexivity |].
  destruct (@X4_nodes_are_independent Demo.externals Demo.start 1%nat Demo.b_esp eq_refl)
    as (node & Hnode & Hname & _ & _ & _ & _ & _ & _ & Htags & _).
  exists node. split; [exact Hnode | split; [exact Hname | exact Htags]].
Defined.

(** X5 for "a.esp" and "b.esp" of the concrete registry. *)
Lemma X5_witness :
  ∃ names1 names2,
    fst (getConflictingPlugins (H := Demo.externals) "a.esp" Demo.start) = Success names1
    ∧ fst (getConflictingPlugins (H := Demo.externals) "b.esp" Demo.start) = Success names2
    ∧ ("b.esp" ∈ names1 ↔ "a.esp" ∈ names2).
Proof.
  refine (@X5_conflicts_are_mutual Demo.externals Demo.start
            ("a.esp", Demo.a_esp) [("b.esp", Demo.b_esp)]
            "a.esp" "b.esp" "a.esp" "b.esp" Demo.a_esp Demo.b_esp
            eq_refl _ _ eq_refl eq_refl).
  - change (({[ 2748%N ]} : gset N) ≠ ∅). apply non_empty_singleton_L.
  - change (NoDup ["a.esp"; "b.esp"]).
    apply NoDup_cons_2; [| apply NoDup_singleton].
    intros Hin%list_elem_of_singleton. discriminate Hin.
Defined.

(** X6 for the query of "a.esp" on the concrete registry. *)
Lemma X6_witness :
  ["a.esp"; "b.esp"]
  `sublist_of` map fst (plugins (game (snd (getConflictingPlugins
                                              (H := Demo.externals) "a.esp" Demo.start)))).
Proof.
  refine (@X6_conflicts_in_registry_order Demo.externals "a.esp" Demo.start
                                          ["a.esp"; "b.esp"] _).
  vm_compute. reflexivity.
Defined.

(** X7 on a registry whose first plugin has no FormIDs, with a bulk load
    that reads one more FormID into "a.esp" at every run: after the first
    query "a.esp" has two FormIDs, after the second three, so the load ran
    for both. *)
Lemma X7_witness :
  game (snd (getConflictingPlugins
               (H := Sample.reloading) "a.esp"
               (snd (getConflictingPlugins (H := Sample.reloading) "0.esp"
                                           (mkState Sample.header_only [])))))
  = Sample.bulk_load (Sample.bulk_load Sample.header_only)
  ∧ map (fun e => (fst e, size (FormIDs (snd e)))) (plugins Sample.header_only)
    = [("0.esp", 0%nat); ("a.esp", 1%nat)]
  ∧ map (fun e => (fst e, size (FormIDs (snd e))))
        (plugins (game (snd (getConflictingPlugins
                               (H := Sample.reloading) "0.esp"
                               (mkState Sample.header_only [])))))
    = [("0.esp", 0%nat); ("a.esp", 2%nat)]
  ∧ map (fun e => (fst e, size (FormIDs (snd e))))
        (plugins (Sample.bulk_load (Sample.bulk_load Sample.header_only)))
    = [("0.esp", 0%nat); ("a.esp", 3%nat)].
Proof.
  split; [| repeat split; vm_compute; reflexivity].
  exact (@X7_bulk_load_repeats Sample.reloading "0.esp" "a.esp"
           (mkState Sample.header_only [])
           ("0.esp", Demo.installed "0.esp" ∅ ∅) ("0.esp", Demo.installed "0.esp" ∅ ∅)
           [("a.esp", Demo.a_esp)] [("a.esp", Sample.read_one_more Demo.a_esp)]
           eq_refl eq_refl eq_refl eq_refl).
Defined.

(** X11 for two browsers closed in the reverse order of their creation. *)
Lemma X11_witness :
  ∃ h, close_each [2; 1]%nat
                  (fold_left (fun h b => OnAfterCreated b h) [1; 2]%nat LootHandler_)
       = Some h
       ∧ browser_list_ h = []
       ∧ quit_calls h = 1%nat.
Proof.
  destruct (X11_quit_at_the_last_close [1; 2]%nat [2; 1]%nat)
    as (h & Hclose & Hlist & Hquit & _).
  - discriminate.
  - apply Permutation_swap.
  - exists h. split; [exact Hclose | split; [exact Hlist | exact Hquit]].
Defined.

(** X14 for the plain request "getVersion". *)
Lemma X14_witness :
  app_state (after (OnQuery (H := Demo.externals) (H0 := Sample.platform)
                            "getVersion" Sample.world))
  = app_state Sample.world.
Proof.
  refine (@X14_other_requests_keep_the_state Demo.externals Sample.platform
                                             "getVersion" Sample.world _).
  left. do 2 apply list_elem_of_further. apply list_elem_of_here.
Defined.

(** X15 for a request that parses as [changeGame("Oblivion")]. *)
Lemma X15_witness :
  OnQuery (H := Demo.externals) (H0 := Sample.platform) "change" Sample.world
  = OnQuery (H := Demo.externals) (H0 := Sample.platform) "getGameData"
            (set_game Sample.world
                      (ChangeGame (Platform := Sample.platform) "Oblivion" Demo.game)).
Proof.
  refine (@X15_changeGame_then_game_data Demo.externals Sample.platform
            "change" Sample.world
            (mkRequest (Some "changeGame") (Some "Oblivion")) "Oblivion"
            _ eq_refl eq_refl eq_refl).
  unfold plain_requests. intros Hin.
  repeat (apply elem_of_cons in Hin as [Hin | Hin]; [discriminate Hin |]).
  by apply elem_of_nil in Hin.
Defined.

(** X17 for "a.esp", which has one entry in the concrete userlist. *)
Lemma X17_witness :
  FindPlugin (H := Demo.externals)
             (userlist (game (app_state (after (clearPluginMetadata
                                                  (H := Demo.externals) "a.esp"
                                                  Sample.world)))))
             "a.esp"
  = Plugin_ "a.esp".
Proof.
  refine (proj2 (@X17_cleared_plugin_is_not_found Demo.externals
                                                  "a.esp" Sample.world _)).
  vm_compute. lia.
Defined.
